(** * Fleet optimisation: the greedy job-to-carrier assignment

    A shallow embedding of [assign_jobs], the assignment engine of the
    repository.  The function exists in three copies,

    - [src/Optimizer.py]                 (local script),
    - [src/ml_model/optimizer.py]        (local run of the Lambda logic),
    - [src/ml_model/utils/features.py]   (the embedded Lambda optimizer),

    whose loops are the same statement for statement; they differ only in
    the dictionary appended for a selected row.  The embedding keeps one
    loop, indexed by the copy.

    Data.  A pandas frame is the list of its rows in index order; the
    numeric columns are IEEE binary64 values ([PrimFloat.float], the Python
    [float]), so that a missing cell is NaN as in pandas.  A result is a
    Python dict, kept as an association list in insertion order.  The pool
    of free carriers is a [gset string].  Python exceptions are the left
    summand of [exn + _]. *)

From Stdlib Require Import ZArith Floats Lia.
From stdpp Require Import gmap strings list sorting.

(** ** Frames, dictionaries, exceptions *)

Record CandidateRecord := {
  carrier_id : string;
  job_id : Z;
  p90_time_min : float;
  carrier_hours_worked : float
}.

Abbreviation DataFrame := (list CandidateRecord).

Inductive value :=
| VNone
| VInt (z : Z)
| VFloat (x : float)
| VStr (s : string).

Abbreviation dict := (list (string * value)).

Fixpoint dict_get (k : string) (d : dict) : option value :=
  match d with
  | [] => None
  | (k', v) :: d' => if String.eqb k' k then Some v else dict_get k d'
  end.

Definition dict_keys (d : dict) : list string := fst <$> d.

Inductive exn := KeyError | ValueError.

Definition bind {A B : Type} (m : exn + A) (k : A -> exn + B) : exn + B :=
  match m with
  | inl e => inl e
  | inr a => k a
  end.

Notation "'let*' x := m 'in' k" := (bind m (fun x => k))
  (at level 10, x name, m at level 100, k at level 200, only parsing).

(** ** Order of binary64 values

    [sf_rank] sends every value but NaN to a triple of integers whose
    lexicographic order is the IEEE order ([-0] and [+0] share a rank). *)

Definition sf_rank (x : spec_float) : option (Z * Z * Z) :=
  match x with
  | S754_nan => None
  | S754_zero _ => Some (0, 0, 0)%Z
  | S754_infinity s => Some (if s then (-2)%Z else 2%Z, 0%Z, 0%Z)
  | S754_finite s m e =>
      Some (if s then ((-1)%Z, (- e)%Z, (- Z.pos m)%Z) else (1%Z, e, Z.pos m))
  end.

Definition rank (x : float) : option (Z * Z * Z) := sf_rank (Prim2SF x).

Definition lex_lt (a b : Z * Z * Z) : Prop :=
  let '(a1, a2, a3) := a in
  let '(b1, b2, b3) := b in
  (a1 < b1 \/ (a1 = b1 /\ (a2 < b2 \/ (a2 = b2 /\ a3 < b3))))%Z.

(** ** The pandas operations the loop uses *)

(** [df.groupby("job_id")]: pandas sorts the group keys ([sort=True] is the
    default); each group keeps its rows in frame order. *)
Definition group_keys (df : DataFrame) : list Z :=
  merge_sort Z.le (remove_dups (job_id <$> df)).

Definition groupby_job_id (df : DataFrame) : list (Z * DataFrame) :=
  (fun j => (j, filter (fun r => job_id r = j) df)) <$> group_keys df.

(** [job_group[job_group["carrier_id"].isin(available_carriers)]] *)
Definition isin_available (available : gset string) (job_group : DataFrame)
  : DataFrame :=
  filter (fun r => carrier_id r ∈ available) job_group.

(** [carrier_hours_worked + p90_time_min / 60.0 <= max_hours] *)
Definition can_work (max_hours : float) (r : CandidateRecord) : bool :=
  PrimFloat.leb
    (PrimFloat.add (carrier_hours_worked r)
                   (PrimFloat.div (p90_time_min r) 60%float))
    max_hours.

(** [valid = job_group[job_group["can_work"]]], after the pool filter. *)
Definition valid_rows (max_hours : float) (available : gset string)
           (job_group : DataFrame) : DataFrame :=
  filter (fun r => can_work max_hours r = true)
         (isin_available available job_group).

(** [Series.idxmin()] with [skipna=True]: missing values are replaced by
    [+inf], then the first position of the minimum is taken. *)
Definition nan_fill (x : float) : float :=
  if PrimFloat.is_nan x then PrimFloat.infinity else x.

Fixpoint argmin (xs : list float) : option (nat * float) :=
  match xs with
  | [] => None
  | x :: xs' =>
      match argmin xs' with
      | Some (i, m) => if PrimFloat.ltb m x then Some (S i, m) else Some (0, x)
      | None => Some (0, x)
      end
  end.

Definition idxmin (xs : list float) : exn + nat :=
  match argmin (nan_fill <$> xs) with
  | Some (i, _) => inr i
  | None => inl ValueError
  end.

(** [valid.loc[label]] on the unique index of the frame. *)
Definition loc (valid : DataFrame) (i : nat) : exn + CandidateRecord :=
  match valid !! i with
  | Some r => inr r
  | None => inl KeyError
  end.

(** [set.remove(x)] raises [KeyError] when [x] is absent. *)
Definition set_remove (x : string) (s : gset string) : exn + gset string :=
  if decide (x ∈ s) then inr (s ∖ {[x]}) else inl KeyError.

(** ** The loop *)

Inductive source_copy :=
| Optimizer_py            (* src/Optimizer.py *)
| ml_model_optimizer_py   (* src/ml_model/optimizer.py *)
| optimizer_lambda_py.    (* src/ml_model/utils/features.py *)

Definition no_eligible_reason : string :=
  "No eligible carriers under 9-hour limit".

Definition unassigned_entry (job : Z) : dict :=
  [("job_id", VInt job);
   ("carrier_id", VNone);
   ("reason", VStr no_eligible_reason)].

(** The dict appended for the selected row.  Only
    [src/ml_model/optimizer.py] records [carrier_hours_before]; its [int(..)]
    and [float(..)] casts, and those of the Lambda copy, are the identity on
    the typed columns of this model. *)
Definition assigned_entry (c : source_copy) (best_row : CandidateRecord) : dict :=
  match c with
  | ml_model_optimizer_py =>
      [("job_id", VInt (job_id best_row));
       ("carrier_id", VStr (carrier_id best_row));
       ("p90_time_min", VFloat (p90_time_min best_row));
       ("carrier_hours_before", VFloat (carrier_hours_worked best_row))]
  | Optimizer_py | optimizer_lambda_py =>
      [("job_id", VInt (job_id best_row));
       ("carrier_id", VStr (carrier_id best_row));
       ("p90_time_min", VFloat (p90_time_min best_row))]
  end.

Record state := {
  assignments : list dict;
  available_carriers : gset string
}.

Definition initial_state (df : DataFrame) : state :=
  {| assignments := [];
     available_carriers := list_to_set (carrier_id <$> df) |}.

(** One iteration of [for job_id, job_group in df.groupby("job_id")]: the
    two filters, the [valid.empty] test, the selection of [best_row], the
    append and the removal from the pool.  An exception leaves the function,
    so the results appended so far are lost with it. *)
Definition process_job (c : source_copy) (max_hours : float) (st : state)
           (g : Z * DataFrame) : exn + state :=
  let valid := valid_rows max_hours (available_carriers st) g.2 in
  match valid with
  | [] =>
      inr {| assignments := assignments st ++ [unassigned_entry g.1];
             available_carriers := available_carriers st |}
  | _ :: _ =>
      let* i := idxmin (p90_time_min <$> valid) in
      let* best_row := loc valid i in
      let assignments' := assignments st ++ [assigned_entry c best_row] in
      let* pool := set_remove (carrier_id best_row) (available_carriers st) in
      inr {| assignments := assignments'; available_carriers := pool |}
  end.

Fixpoint run (c : source_copy) (max_hours : float)
         (groups : list (Z * DataFrame)) (st : state) : exn + state :=
  match groups with
  | [] => inr st
  | g :: groups' =>
      let* st' := process_job c max_hours st g in
      run c max_hours groups' st'
  end.

Definition assign_jobs (c : source_copy) (df : DataFrame) (max_hours : float)
  : exn + list dict :=
  let* st := run c max_hours (groupby_job_id df) (initial_state df) in
  inr (assignments st).

Definition default_max_hours : float := 9%float.

(** The loop stopped after its first [k] iterations. *)
Definition run_upto (c : source_copy) (df : DataFrame) (max_hours : float)
           (k : nat) : exn + state :=
  run c max_hours (take k (groupby_job_id df)) (initial_state df).

(** ** Reading a result *)

(** An Assigned result has a carrier under ["carrier_id"]; an Unassigned
    one has [None] there. *)
Definition assigned_carrier (d : dict) : option string :=
  match dict_get "carrier_id" d with
  | Some (VStr s) => Some s
  | _ => None
  end.

Definition result_job (d : dict) : option Z :=
  match dict_get "job_id" d with
  | Some (VInt j) => Some j
  | _ => None
  end.

(** ** Specification vocabulary *)

(** Row [best] sits at position [i] of [valid], no row of [valid] is
    strictly faster, and every row before position [i] is strictly slower:
    [i] is the first position of the minimum. *)
Definition first_min_at (valid : DataFrame) (i : nat) (best : CandidateRecord)
  : Prop :=
  valid !! i = Some best /\
  (forall r, r ∈ valid ->
     PrimFloat.ltb (p90_time_min r) (p90_time_min best) = false) /\
  (forall i' r, i' < i -> valid !! i' = Some r ->
     PrimFloat.ltb (p90_time_min best) (p90_time_min r) = true).

(** What one iteration does to the pool, and the result it appends. *)
Inductive outcome (c : source_copy) (max_hours : float) (pool : gset string)
          (g : Z * DataFrame) : dict -> gset string -> Prop :=
| outcome_unassigned :
    valid_rows max_hours pool g.2 = [] ->
    outcome c max_hours pool g (unassigned_entry g.1) pool
| outcome_assigned i best :
    first_min_at (valid_rows max_hours pool g.2) i best ->
    outcome c max_hours pool g
            (assigned_entry c best) (pool ∖ {[carrier_id best]}).

Inductive trace (c : source_copy) (max_hours : float)
  : gset string -> list (Z * DataFrame) -> list dict -> gset string -> Prop :=
| trace_nil pool : trace c max_hours pool [] [] pool
| trace_cons pool g d pool' groups ds pool'' :
    outcome c max_hours pool g d pool' ->
    trace c max_hours pool' groups ds pool'' ->
    trace c max_hours pool (g :: groups) (d :: ds) pool''.

(** The order the specification text describes: distinct job ids in the
    order of their first appearance in the input. *)
Fixpoint first_appearance_order (js : list Z) : list Z :=
  match js with
  | [] => []
  | j :: js' => j :: filter (fun j' => j' <> j) (first_appearance_order js')
  end.

(** The reason string the specification text gives for the default cap. *)
Definition spec_reason_default : string :=
  "No eligible carriers under 9.0-hour limit".

(** ** Sample frames *)

Definition row (c : string) (j : Z) (p h : float) : CandidateRecord :=
  {| carrier_id := c; job_id := j;
     p90_time_min := p; carrier_hours_worked := h |}.

(** Two jobs, two carriers, a different fastest carrier for each job. *)
Definition frame_two_jobs : DataFrame :=
  [row "C1" 0 10 0; row "C2" 0 20 0; row "C1" 1 30 0; row "C2" 1 5 0].

(** The faster carrier is over the cap, the slower one is not. *)
Definition frame_cap : DataFrame :=
  [row "X" 0 40 8.5; row "Y" 0 50 0].

(** Every candidate is over the cap. *)
Definition frame_all_over : DataFrame :=
  [row "X" 0 40 8.5; row "Y" 0 90 8].

(** Two jobs compete for one carrier; job 1 comes first in the input. *)
Definition frame_shared : DataFrame :=
  [row "C1" 1 10 0; row "C1" 0 10 0].

(** Three candidates, the last two tied on the minimal time. *)
Definition frame_tie : DataFrame :=
  [row "C1" 0 20 0; row "C2" 0 10 0; row "C3" 0 10 0].

(** A row whose predicted time is missing. *)
Definition frame_missing : DataFrame :=
  [row "C1" 0 PrimFloat.nan 0].

(** ** The callers of [assign_jobs]

    [main] of [src/ml_model/optimizer.py] and [lambda_handler] of
    [src/ml_model/utils/features.py] read a table of predictions, derive the
    columns [assign_jobs] needs and call it with the default cap. *)

(** A row of the predictions table, as [predict_for_all_carriers] of
    [src/ml_model/inference.py] writes it (the columns the callers read). *)
Record PredictionRow := {
  pred_carrier_id : string;
  predicted_time_sec : float;
  predicted_time_min : float
}.

(** [df["carrier_id"].nunique()] *)
Definition nunique (xs : list string) : nat := length (remove_dups xs).

(** [df.index // carriers_per_job] at position [i] of the default index.
    [carriers_per_job] is [0] only for a table without rows. *)
Definition index_job_id (carriers_per_job i : nat) : Z :=
  (Z.of_nat i `div` Z.of_nat carriers_per_job)%Z.

Definition CARRIER_HOURS : gmap string float :=
  list_to_map
    [("C1", 0x1.3333333333333p+0%float);   (* 1.2 *)
     ("C2", 0x1.0cccccccccccdp+1%float);   (* 2.1 *)
     ("C3", 0x1.b333333333333p+1%float);   (* 3.4 *)
     ("C4", 0x1.1cccccccccccdp+3%float);   (* 8.9 *)
     ("C5", 10%float)].

(** Steps 1 and 2 of [main]: job ids from the row position, hours from
    [CARRIER_HOURS] with [fillna(0.0)], [p90_time_min] from
    [predicted_time_min]. *)
Definition main_frame (raw : list PredictionRow) : DataFrame :=
  let carriers_per_job := nunique (pred_carrier_id <$> raw) in
  imap (fun i r =>
          {| carrier_id := pred_carrier_id r;
             job_id := index_job_id carriers_per_job i;
             p90_time_min := predicted_time_min r;
             carrier_hours_worked :=
               default 0%float (CARRIER_HOURS !! pred_carrier_id r) |})
       raw.

(** Steps 2 and 3 of [lambda_handler]: job ids from the row position,
    [p90_time_min = predicted_time_sec / 60.0], hours [0.0]. *)
Definition lambda_frame (raw : list PredictionRow) : DataFrame :=
  let carriers_per_job := nunique (pred_carrier_id <$> raw) in
  imap (fun i r =>
          {| carrier_id := pred_carrier_id r;
             job_id := index_job_id carriers_per_job i;
             p90_time_min := PrimFloat.div (predicted_time_sec r) 60%float;
             carrier_hours_worked := 0%float |})
       raw.

(** Step 3 of [main]: [assign_jobs(df)]. *)
Definition main_assignments (raw : list PredictionRow) : exn + list dict :=
  assign_jobs ml_model_optimizer_py (main_frame raw) default_max_hours.

(** [to_python]: numpy scalars become Python scalars, anything else is
    returned as it is. *)
Definition to_python (v : value) : value :=
  match v with
  | VInt z => VInt z
  | VFloat x => VFloat x
  | VStr s => VStr s
  | VNone => VNone
  end.

(** [{k: to_python(v) for k, v in row.items()}] *)
Definition to_python_row (d : dict) : dict :=
  (fun kv => (kv.1, to_python kv.2)) <$> d.

(** ** The newest predictions file *)

Record s3_object := {
  Key : string;
  LastModified : Z
}.

Inductive py_exception :=
| FileNotFoundError (msg : string)
| IndexError
| OtherException (msg : string).

(** [s.endswith(suffix)]: some tail of [s] is [suffix]. *)
Fixpoint endswith (s suffix : string) : bool :=
  String.eqb s suffix ||
  match s with
  | EmptyString => false
  | String _ s' => endswith s' suffix
  end.

(** [sorted(csvs, key=lambda x: x["LastModified"], reverse=True)]: Python's
    sort is stable, also under [reverse=True], so objects with the same
    time stamp keep their order. *)
Fixpoint insert_latest_first (x : s3_object) (l : list s3_object)
  : list s3_object :=
  match l with
  | [] => [x]
  | y :: l' =>
      if (LastModified x <? LastModified y)%Z
      then y :: insert_latest_first x l'
      else x :: l
  end.

Definition sorted_latest_first (l : list s3_object) : list s3_object :=
  foldr insert_latest_first [] l.

(** [get_latest_csv], on the response of [list_objects_v2]: [None] is a
    response without ["Contents"]. *)
Definition get_latest_csv (resp : option (list s3_object))
  : py_exception + string :=
  match resp with
  | None => inl (FileNotFoundError "No files found in predictions/ folder.")
  | Some contents =>
      let csvs := filter (fun obj => endswith (Key obj) ".csv" = true) contents in
      match csvs with
      | [] => inl (FileNotFoundError "No CSV files found in predictions/ folder.")
      | _ :: _ =>
          match sorted_latest_first csvs with
          | latest :: _ => inr (Key latest)
          | [] => inl IndexError
          end
      end
  end.

(** ** The Lambda handler

    What the bucket, the clock and the CSV reader and writer answer during
    one invocation; each is asked at most once. *)
Record S3 := {
  list_objects_v2 : py_exception + option (list s3_object);
  get_object : string -> py_exception + string;
  read_csv : string -> py_exception + list PredictionRow;
  utcnow_isoformat : string;
  to_csv : list dict -> string;
  put_object : string -> string -> py_exception + unit;
  delete_object : string -> py_exception + unit
}.

(** The requests sent to the bucket, in order. *)
Inductive s3_call :=
| ListObjectsV2
| GetObject (key : string)
| PutObject (key : string) (content : string)
| DeleteObject (key : string).

(** The JSON body of the response: one of the three error messages with
    the exception it quotes, or the success payload. *)
Inductive body :=
| failed_loading (e : py_exception)
| optimization_failed (e : exn)
| failed_writing (e : py_exception)
| optimized (optimized_s3_key : string) (assignments : list dict)
            (deleted_input_file : bool) (deleted_key : string).

Record response := {
  statusCode : Z;
  headers : list (string * string);
  response_body : body
}.

Definition error_response (b : body) : response :=
  {| statusCode := 500; headers := []; response_body := b |}.

Definition OPTIMIZED_PREFIX : string := "optimized/".

Definition lambda_handler (s3 : S3) : response * list s3_call :=
  match list_objects_v2 s3 with
  | inl e => (error_response (failed_loading e), [ListObjectsV2])
  | inr resp =>
  match get_latest_csv resp with
  | inl e => (error_response (failed_loading e), [ListObjectsV2])
  | inr key =>
  match get_object s3 key with
  | inl e => (error_response (failed_loading e), [ListObjectsV2; GetObject key])
  | inr content =>
  match read_csv s3 content with
  | inl e => (error_response (failed_loading e), [ListObjectsV2; GetObject key])
  | inr raw =>
  let df := lambda_frame raw in
  match assign_jobs optimizer_lambda_py df default_max_hours with
  | inl e =>
      (error_response (optimization_failed e), [ListObjectsV2; GetObject key])
  | inr assignments =>
  let out_key :=
    String.append OPTIMIZED_PREFIX
      (String.append "optimized_"
         (String.append (utcnow_isoformat s3) ".csv")) in
  let csv := to_csv s3 assignments in
  match put_object s3 out_key csv with
  | inl e =>
      (error_response (failed_writing e),
       [ListObjectsV2; GetObject key; PutObject out_key csv])
  | inr _ =>
      let deleted :=
        match delete_object s3 key with
        | inr _ => true
        | inl _ => false
        end in
      ({| statusCode := 200;
          headers := [("Access-Control-Allow-Origin", "*")];
          response_body :=
            optimized out_key
                      (to_python_row <$> assignments)
                      deleted key |},
       [ListObjectsV2; GetObject key; PutObject out_key csv; DeleteObject key])
  end end end end end end.

(** A table of predictions and a bucket to run the handler on. *)
Definition sample_predictions : list PredictionRow :=
  [ {| pred_carrier_id := "C1"; predicted_time_sec := 600;
       predicted_time_min := 10 |};
    {| pred_carrier_id := "C2"; predicted_time_sec := 300;
       predicted_time_min := 5 |};
    {| pred_carrier_id := "C1"; predicted_time_sec := 120;
       predicted_time_min := 2 |};
    {| pred_carrier_id := "C2"; predicted_time_sec := 900;
       predicted_time_min := 15 |};
    {| pred_carrier_id := "C1"; predicted_time_sec := 60;
       predicted_time_min := 1 |} ].

Definition sample_listing : list s3_object :=
  [ {| Key := "predictions/a.csv"; LastModified := 10 |};
    {| Key := "predictions/notes.txt"; LastModified := 99 |};
    {| Key := "predictions/b.csv"; LastModified := 30 |};
    {| Key := "predictions/c.csv"; LastModified := 30 |} ].

Definition sample_s3 : S3 :=
  {| list_objects_v2 := inr (Some sample_listing);
     get_object := fun key => inr key;
     read_csv := fun _ => inr sample_predictions;
     utcnow_isoformat := "2024-01-01T00:00:00";
     to_csv := fun _ => "csv";
     put_object := fun _ _ => inr tt;
     delete_object := fun _ => inl (OtherException "AccessDenied") |}.

(** The state of the loop on [frame_two_jobs] after its first iteration. *)
Definition state_after_first_job : state :=
  {| assignments := [assigned_entry Optimizer_py (row "C1" 0 10 0)];
     available_carriers := list_to_set ["C1"; "C2"] ∖ {["C1"]} |}.

(** * Theorems *)

(** ** Order facts for binary64 *)

Lemma pos_compare_cont_Eq (p q : positive) :
  PosDef.Pos.compare_cont Eq p q = (p ?= q)%positive.
Proof. reflexivity. Qed.

Lemma SFcompare_rank (x y : spec_float) (a b : Z * Z * Z) :
  sf_rank x = Some a -> sf_rank y = Some b ->
  exists c, SFcompare x y = Some c /\
    match c with
    | Lt => lex_lt a b
    | Eq => a = b
    | Gt => lex_lt b a
    end.
Proof.
  destruct x as [sx|sx| |sx mx ex], y as [sy|sy| |sy my ey];
    simpl; intros Ha Hb; try discriminate;
    injection Ha as <-; injection Hb as <-;
    repeat match goal with s : bool |- _ => destruct s end;
    try (eexists; split; [reflexivity|]; simpl; first [reflexivity | lia]).
  all: rewrite pos_compare_cont_Eq;
    destruct (Z.compare_spec ex ey) as [->| |];
    try (eexists; split; [reflexivity|]; simpl; lia).
  all: destruct (Pos.compare_spec mx my) as [->| |];
    eexists; (split; [reflexivity|]); simpl; first [reflexivity | lia].
Qed.

Lemma SFcompare_nan_l (x y : spec_float) :
  sf_rank x = None -> SFcompare x y = None.
Proof. destruct x; simpl; intros; try discriminate; reflexivity. Qed.

Lemma SFcompare_nan_r (x y : spec_float) :
  sf_rank y = None -> SFcompare x y = None.
Proof. destruct y, x; simpl; intros; try discriminate; reflexivity. Qed.

Lemma is_nan_rank (x : float) :
  PrimFloat.is_nan x = true <-> rank x = None.
Proof.
  unfold PrimFloat.is_nan, rank. rewrite FloatAxioms.eqb_spec. unfold SFeqb.
  destruct (sf_rank (Prim2SF x)) as [a|] eqn:Hr.
  - destruct (SFcompare_rank _ _ _ _ Hr Hr) as (c & -> & Hc).
    destruct c; simpl; [split; discriminate| |];
      destruct a as [[a1 a2] a3]; simpl in Hc; lia.
  - rewrite SFcompare_nan_l by assumption. split; reflexivity.
Qed.

Lemma not_nan_rank (x : float) :
  PrimFloat.is_nan x = false <-> exists a, rank x = Some a.
Proof.
  destruct (PrimFloat.is_nan x) eqn:Hn.
  - apply is_nan_rank in Hn. rewrite Hn. split; [discriminate|intros [? ?]; discriminate].
  - split; [intros _|reflexivity].
    destruct (rank x) eqn:Hr; [eauto|]. apply is_nan_rank in Hr. congruence.
Qed.

Lemma ltb_rank (x y : float) :
  PrimFloat.ltb x y = true <->
  exists a b, rank x = Some a /\ rank y = Some b /\ lex_lt a b.
Proof.
  rewrite FloatAxioms.ltb_spec. unfold SFltb, rank.
  destruct (sf_rank (Prim2SF x)) as [a|] eqn:Ha.
  2:{ rewrite SFcompare_nan_l by assumption.
      split; [discriminate|intros (? & ? & ? & _); discriminate]. }
  destruct (sf_rank (Prim2SF y)) as [b|] eqn:Hb.
  2:{ rewrite SFcompare_nan_r by assumption.
      split; [discriminate|intros (? & ? & _ & ? & _); discriminate]. }
  destruct (SFcompare_rank _ _ _ _ Ha Hb) as (c & -> & Hc).
  destruct a as [[a1 a2] a3], b as [[b1 b2] b3].
  split.
  - destruct c; try discriminate. eauto.
  - intros (a' & b' & [= <-] & [= <-] & Hlt).
    destruct c; [injection Hc as -> -> ->| |]; simpl in *; first [reflexivity | lia].
Qed.

Lemma leb_rank (x y : float) :
  PrimFloat.leb x y = true <->
  exists a b, rank x = Some a /\ rank y = Some b /\ ~ lex_lt b a.
Proof.
  rewrite FloatAxioms.leb_spec. unfold SFleb, rank.
  destruct (sf_rank (Prim2SF x)) as [a|] eqn:Ha.
  2:{ rewrite SFcompare_nan_l by assumption.
      split; [discriminate|intros (? & ? & ? & _); discriminate]. }
  destruct (sf_rank (Prim2SF y)) as [b|] eqn:Hb.
  2:{ rewrite SFcompare_nan_r by assumption.
      split; [discriminate|intros (? & ? & _ & ? & _); discriminate]. }
  destruct (SFcompare_rank _ _ _ _ Ha Hb) as (c & -> & Hc).
  destruct a as [[a1 a2] a3], b as [[b1 b2] b3].
  split.
  - intros Hle. exists (a1, a2, a3), (b1, b2, b3). repeat split.
    destruct c; [injection Hc as -> -> ->| |]; simpl in *; first [discriminate | lia].
  - intros (a' & b' & [= <-] & [= <-] & Hlt).
    destruct c; [reflexivity|reflexivity|]. simpl in *. lia.
Qed.

Lemma ltb_asym (x y : float) :
  PrimFloat.ltb x y = true -> PrimFloat.ltb y x = false.
Proof.
  intros Hxy. destruct (PrimFloat.ltb y x) eqn:Hyx; [|reflexivity].
  apply ltb_rank in Hxy as (a & b & Ha & Hb & Hab).
  apply ltb_rank in Hyx as (b' & a' & Hb' & Ha' & Hba).
  rewrite Ha in Ha'. rewrite Hb in Hb'.
  injection Ha' as <-. injection Hb' as <-.
  destruct a as [[a1 a2] a3], b as [[b1 b2] b3]. simpl in *. lia.
Qed.

Lemma ltb_irrefl (x : float) : PrimFloat.ltb x x = false.
Proof.
  destruct (PrimFloat.ltb x x) eqn:H; [|reflexivity].
  pose proof (ltb_asym _ _ H). congruence.
Qed.

Lemma ltb_false_trans (x y z : float) :
  PrimFloat.is_nan y = false ->
  PrimFloat.ltb x y = false -> PrimFloat.ltb y z = false ->
  PrimFloat.ltb x z = false.
Proof.
  intros Hy Hxy Hyz. destruct (PrimFloat.ltb x z) eqn:Hxz; [|reflexivity].
  apply not_nan_rank in Hy as [b Hb].
  apply ltb_rank in Hxz as (a & d & Ha & Hd & Had).
  assert (~ lex_lt a b) as Hab.
  { intros H. assert (PrimFloat.ltb x y = true); [|congruence].
    apply ltb_rank. eauto 6. }
  assert (~ lex_lt b d) as Hbd.
  { intros H. assert (PrimFloat.ltb y z = true); [|congruence].
    apply ltb_rank. eauto 6. }
  destruct a as [[a1 a2] a3], b as [[b1 b2] b3], d as [[d1 d2] d3].
  simpl in *. lia.
Qed.

Lemma nan_fill_not_nan (x : float) : PrimFloat.is_nan (nan_fill x) = false.
Proof.
  unfold nan_fill. destruct (PrimFloat.is_nan x) eqn:H; [reflexivity|exact H].
Qed.

Lemma nan_fill_id (x : float) : PrimFloat.is_nan x = false -> nan_fill x = x.
Proof. unfold nan_fill. intros ->. reflexivity. Qed.

Lemma sf_rank_None (x : spec_float) : sf_rank x = None -> x = S754_nan.
Proof. destruct x; simpl; intros; try discriminate; reflexivity. Qed.

Lemma add_not_nan (x y : float) :
  PrimFloat.is_nan (PrimFloat.add x y) = false ->
  PrimFloat.is_nan x = false /\ PrimFloat.is_nan y = false.
Proof.
  intros H. apply not_nan_rank in H as [a Ha].
  unfold rank in Ha. rewrite add_spec in Ha.
  split.
  - destruct (PrimFloat.is_nan x) eqn:Hx; [|reflexivity].
    apply is_nan_rank, sf_rank_None in Hx. rewrite Hx in Ha. discriminate.
  - destruct (PrimFloat.is_nan y) eqn:Hy; [|reflexivity].
    apply is_nan_rank, sf_rank_None in Hy. rewrite Hy in Ha.
    destruct (Prim2SF x); discriminate.
Qed.

Lemma div_not_nan (x y : float) :
  PrimFloat.is_nan (PrimFloat.div x y) = false -> PrimFloat.is_nan x = false.
Proof.
  intros H. apply not_nan_rank in H as [a Ha].
  unfold rank in Ha. rewrite div_spec in Ha.
  destruct (PrimFloat.is_nan x) eqn:Hx; [|reflexivity].
  apply is_nan_rank, sf_rank_None in Hx. rewrite Hx in Ha. discriminate.
Qed.

Lemma leb_not_nan (x y : float) :
  PrimFloat.leb x y = true -> PrimFloat.is_nan x = false.
Proof.
  intros H. apply leb_rank in H as (a & b & Ha & _). apply not_nan_rank. eauto.
Qed.

Lemma can_work_not_nan (max_hours : float) (r : CandidateRecord) :
  can_work max_hours r = true ->
  PrimFloat.is_nan (p90_time_min r) = false /\
  PrimFloat.is_nan (carrier_hours_worked r) = false.
Proof.
  unfold can_work. intros H. apply leb_not_nan, add_not_nan in H as [Hh Hd].
  apply div_not_nan in Hd. auto.
Qed.

(** ** The first position of the minimum *)

Lemma argmin_None (xs : list float) : argmin xs = None -> xs = [].
Proof.
  destruct xs as [|x xs]; [reflexivity|]. simpl.
  destruct (argmin xs) as [[i m]|]; [|discriminate].
  destruct (PrimFloat.ltb m x); discriminate.
Qed.

Lemma argmin_spec (xs : list float) (i : nat) (m : float) :
  Forall (fun x => PrimFloat.is_nan x = false) xs ->
  argmin xs = Some (i, m) ->
  xs !! i = Some m /\
  (forall x, x ∈ xs -> PrimFloat.ltb x m = false) /\
  (forall i' x, i' < i -> xs !! i' = Some x -> PrimFloat.ltb m x = true).
Proof.
  intros Hnan. revert i m.
  induction Hnan as [|x xs Hx Hxs IH]; intros i m; [discriminate|].
  simpl. destruct (argmin xs) as [[j m']|] eqn:Hrec.
  - destruct (IH j m' eq_refl) as (Hj & Hmin & Hfirst).
    destruct (PrimFloat.ltb m' x) eqn:Hlt; intros [= <- <-].
    + split; [exact Hj|]. split.
      * intros y [->|Hy]%elem_of_cons; [by apply ltb_asym|by apply Hmin].
      * intros [|i'] y Hi' Hy; simpl in Hy.
        -- by injection Hy as <-.
        -- apply (Hfirst i'); [lia|done].
    + split; [reflexivity|]. split.
      * intros y [->|Hy]%elem_of_cons; [apply ltb_irrefl|].
        apply (ltb_false_trans y m' x); [|by apply Hmin|done].
        rewrite Forall_forall in Hxs. apply Hxs.
        by eapply list_elem_of_lookup_2.
      * intros i' y Hi'. lia.
  - apply argmin_None in Hrec as ->. intros [= <- <-].
    split; [reflexivity|]. split.
    + intros y [->|Hy]%elem_of_cons; [apply ltb_irrefl|by apply elem_of_nil in Hy].
    + intros i' y Hi'. lia.
Qed.

Lemma valid_rows_elem (max_hours : float) (pool : gset string)
      (job_group : DataFrame) (r : CandidateRecord) :
  r ∈ valid_rows max_hours pool job_group <->
  r ∈ job_group /\ carrier_id r ∈ pool /\ can_work max_hours r = true.
Proof.
  unfold valid_rows, isin_available. rewrite !list_elem_of_filter. tauto.
Qed.

Lemma idxmin_valid (valid : DataFrame) :
  Forall (fun r => PrimFloat.is_nan (p90_time_min r) = false) valid ->
  valid <> [] ->
  exists i best, idxmin (p90_time_min <$> valid) = inr i /\
                 first_min_at valid i best.
Proof.
  intros Hnan Hne. unfold idxmin.
  assert (nan_fill <$> (p90_time_min <$> valid) = p90_time_min <$> valid) as ->.
  { rewrite <- list_fmap_compose. apply Forall_fmap_ext_1.
    eapply Forall_impl; [exact Hnan|].
    intros r Hr. simpl. by apply nan_fill_id. }
  destruct (argmin (p90_time_min <$> valid)) as [[i m]|] eqn:Hmin.
  2:{ apply argmin_None, fmap_nil_inv in Hmin. done. }
  apply argmin_spec in Hmin as (Hi & Hle & Hfirst).
  2:{ by apply Forall_fmap. }
  apply list_lookup_fmap_Some_1 in Hi as (best & -> & Hbest).
  exists i, best. split; [reflexivity|].
  split; [exact Hbest|]. split.
  - intros r Hr. apply Hle. by apply list_elem_of_fmap_2.
  - intros i' r Hi' Hr. apply (Hfirst i'); [done|].
    by rewrite list_lookup_fmap, Hr.
Qed.

(** ** One iteration *)

Lemma process_job_outcome (c : source_copy) (max_hours : float) (st : state)
      (g : Z * DataFrame) :
  exists d pool',
    process_job c max_hours st g
    = inr {| assignments := assignments st ++ [d];
             available_carriers := pool' |} /\
    outcome c max_hours (available_carriers st) g d pool'.
Proof.
  unfold process_job.
  destruct (valid_rows max_hours (available_carriers st) g.2)
    as [|r0 valid'] eqn:Hvalid.
  - eexists _, _. split; [reflexivity|]. by apply outcome_unassigned.
  - destruct (idxmin_valid (r0 :: valid')) as (i & best & Hidx & Hmin).
    { rewrite <- Hvalid. apply Forall_forall. intros r Hr.
      apply valid_rows_elem in Hr as (_ & _ & Hr).
      by apply can_work_not_nan in Hr as [? _]. }
    { done. }
    rewrite Hidx. simpl. unfold loc.
    pose proof Hmin as (Hbest & _). rewrite Hbest. simpl.
    assert (carrier_id best ∈ available_carriers st) as Hin.
    { apply list_elem_of_lookup_2 in Hbest. rewrite <- Hvalid in Hbest.
      by apply valid_rows_elem in Hbest as (_ & ? & _). }
    unfold set_remove. rewrite decide_True by done. simpl.
    eexists _, _. split; [reflexivity|].
    apply (outcome_assigned _ _ _ _ i). by rewrite Hvalid.
Qed.

Lemma outcome_pool (c : source_copy) (max_hours : float) (pool : gset string)
      (g : Z * DataFrame) (d : dict) (pool' : gset string) :
  outcome c max_hours pool g d pool' ->
  match assigned_carrier d with
  | None => pool' = pool
  | Some cid => cid ∈ pool /\ pool' = pool ∖ {[cid]}
  end.
Proof.
  intros [Hnone|i best (Hbest & _)]; [reflexivity|].
  apply list_elem_of_lookup_2, valid_rows_elem in Hbest as (_ & Hin & _).
  by destruct c.
Qed.

Lemma outcome_entry (c : source_copy) (max_hours : float) (pool : gset string)
      (g : Z * DataFrame) (d : dict) (pool' : gset string) :
  outcome c max_hours pool g d pool' ->
  (d = unassigned_entry g.1 /\ valid_rows max_hours pool g.2 = []) \/
  (exists i best, d = assigned_entry c best /\
                  first_min_at (valid_rows max_hours pool g.2) i best).
Proof. intros [Hnone|i best Hmin]; eauto. Qed.

(** ** The whole loop *)

Lemma run_app (c : source_copy) (max_hours : float)
      (gs1 gs2 : list (Z * DataFrame)) (st : state) :
  run c max_hours (gs1 ++ gs2) st
  = bind (run c max_hours gs1 st) (run c max_hours gs2).
Proof.
  revert st. induction gs1 as [|g gs1 IH]; intros st; [reflexivity|].
  simpl. destruct (process_job c max_hours st g) as [e|st']; [reflexivity|].
  simpl. apply IH.
Qed.

Lemma run_trace (c : source_copy) (max_hours : float)
      (gs : list (Z * DataFrame)) (st : state) :
  exists ds pool',
    run c max_hours gs st
    = inr {| assignments := assignments st ++ ds;
             available_carriers := pool' |} /\
    trace c max_hours (available_carriers st) gs ds pool'.
Proof.
  revert st. induction gs as [|g gs IH]; intros st.
  - exists [], (available_carriers st). rewrite app_nil_r.
    split; [by destruct st|constructor].
  - destruct (process_job_outcome c max_hours st g) as (d & pool1 & Hstep & Hout).
    simpl. rewrite Hstep. simpl.
    destruct (IH {| assignments := assignments st ++ [d];
                    available_carriers := pool1 |})
      as (ds & pool2 & Hrun & Htr).
    simpl in *. exists (d :: ds), pool2. split.
    + rewrite Hrun. by rewrite <- app_assoc.
    + by econstructor.
Qed.

Lemma trace_length (c : source_copy) (max_hours : float) (pool : gset string)
      (gs : list (Z * DataFrame)) (ds : list dict) (pool' : gset string) :
  trace c max_hours pool gs ds pool' -> length ds = length gs.
Proof. induction 1; simpl; congruence. Qed.

Lemma trace_subseteq (c : source_copy) (max_hours : float) (pool : gset string)
      (gs : list (Z * DataFrame)) (ds : list dict) (pool' : gset string) :
  trace c max_hours pool gs ds pool' -> pool' ⊆ pool.
Proof.
  induction 1 as [|pool g d pool1 gs ds pool2 Hout _ IH]; [done|].
  apply outcome_pool in Hout. destruct (assigned_carrier d) as [cid|].
  - destruct Hout as [_ ->]. intros x Hx. apply IH in Hx.
    by apply elem_of_difference in Hx as [? _].
  - by subst pool1.
Qed.

Lemma trace_carriers (c : source_copy) (max_hours : float) (pool : gset string)
      (gs : list (Z * DataFrame)) (ds : list dict) (pool' : gset string) :
  trace c max_hours pool gs ds pool' ->
  NoDup (omap assigned_carrier ds) /\
  (forall cid, cid ∈ omap assigned_carrier ds -> cid ∈ pool /\ cid ∉ pool').
Proof.
  induction 1 as [|pool g d pool1 gs ds pool2 Hout Htr [IHnd IHin]].
  - split; [constructor|]. intros cid Hcid. by apply elem_of_nil in Hcid.
  - pose proof (trace_subseteq _ _ _ _ _ _ Htr) as Hsub.
    apply outcome_pool in Hout. simpl.
    destruct (assigned_carrier d) as [cid0|].
    + destruct Hout as [Hin ->]. split.
      * constructor; [|done]. intros Hdup.
        apply IHin in Hdup as [Hdup _].
        apply elem_of_difference in Hdup as [_ Hdup].
        by apply Hdup, elem_of_singleton.
      * intros cid [->|Hcid]%elem_of_cons.
        -- split; [done|]. intros Hback. apply Hsub in Hback.
           apply elem_of_difference in Hback as [_ Hback].
           by apply Hback, elem_of_singleton.
        -- apply IHin in Hcid as [Hcid Hgone]. split; [|done].
           by apply elem_of_difference in Hcid as [? _].
    + subst pool1. by split.
Qed.

Lemma trace_entries (c : source_copy) (max_hours : float) (pool : gset string)
      (gs : list (Z * DataFrame)) (ds : list dict) (pool' : gset string) :
  trace c max_hours pool gs ds pool' ->
  Forall2 (fun g d =>
             d = unassigned_entry g.1 \/
             exists best, d = assigned_entry c best /\ best ∈ g.2 /\
                          can_work max_hours best = true)
          gs ds.
Proof.
  induction 1 as [|pool g d pool1 gs ds pool2 Hout _ IH]; constructor; [|done].
  apply outcome_entry in Hout as [[-> _]|(i & best & -> & Hbest & _)]; [by left|].
  right. exists best.
  apply list_elem_of_lookup_2, valid_rows_elem in Hbest as (? & _ & ?). done.
Qed.

(** ** Grouping *)

Lemma group_keys_elem (df : DataFrame) (j : Z) :
  j ∈ group_keys df <-> j ∈ job_id <$> df.
Proof.
  unfold group_keys. rewrite merge_sort_Permutation. apply elem_of_remove_dups.
Qed.

Lemma group_keys_NoDup (df : DataFrame) : NoDup (group_keys df).
Proof.
  unfold group_keys. rewrite merge_sort_Permutation. apply NoDup_remove_dups.
Qed.

Lemma group_keys_length (df : DataFrame) :
  length (group_keys df) = length (remove_dups (job_id <$> df)).
Proof. unfold group_keys. by rewrite merge_sort_Permutation. Qed.

Lemma group_keys_sorted (df : DataFrame) : StronglySorted Z.lt (group_keys df).
Proof.
  pose proof (group_keys_NoDup df) as Hnd.
  assert (StronglySorted Z.le (group_keys df)) as Hle.
  { unfold group_keys. apply (StronglySorted_merge_sort Z.le). }
  induction Hle as [|j js Hjs IH Hall]; [constructor|].
  apply NoDup_cons in Hnd as [Hj Hnd]. constructor; [by apply IH|].
  rewrite Forall_forall in Hall |- *. intros j' Hj'.
  specialize (Hall j' Hj'). assert (j <> j') by (intros ->; done). lia.
Qed.

Lemma groupby_keys (df : DataFrame) : fst <$> groupby_job_id df = group_keys df.
Proof.
  unfold groupby_job_id. rewrite <- list_fmap_compose. apply list_fmap_id.
Qed.

Lemma groupby_length (df : DataFrame) :
  length (groupby_job_id df) = length (group_keys df).
Proof. unfold groupby_job_id. apply length_fmap. Qed.

Lemma groupby_rows (df : DataFrame) (g : Z * DataFrame) (r : CandidateRecord) :
  g ∈ groupby_job_id df ->
  r ∈ g.2 <-> r ∈ df /\ job_id r = g.1.
Proof.
  unfold groupby_job_id. intros (j & -> & _)%list_elem_of_fmap. simpl.
  rewrite list_elem_of_filter. tauto.
Qed.

Lemma assigned_carrier_unassigned (j : Z) :
  assigned_carrier (unassigned_entry j) = None.
Proof. reflexivity. Qed.

Lemma assigned_carrier_assigned (c : source_copy) (r : CandidateRecord) :
  assigned_carrier (assigned_entry c r) = Some (carrier_id r).
Proof. by destruct c. Qed.

Lemma result_job_unassigned (j : Z) : result_job (unassigned_entry j) = Some j.
Proof. reflexivity. Qed.

Lemma result_job_assigned (c : source_copy) (r : CandidateRecord) :
  result_job (assigned_entry c r) = Some (job_id r).
Proof. by destruct c. Qed.

(** ** The state between two iterations *)

Lemma assign_jobs_trace (c : source_copy) (df : DataFrame) (max_hours : float) :
  exists rs pool',
    assign_jobs c df max_hours = inr rs /\
    trace c max_hours (list_to_set (carrier_id <$> df))
          (groupby_job_id df) rs pool'.
Proof.
  destruct (run_trace c max_hours (groupby_job_id df) (initial_state df))
    as (ds & pool' & Hrun & Htr).
  exists ds, pool'. split; [|exact Htr].
  unfold assign_jobs. by rewrite Hrun.
Qed.

Lemma run_upto_S (c : source_copy) (df : DataFrame) (max_hours : float)
      (k : nat) (g : Z * DataFrame) :
  groupby_job_id df !! k = Some g ->
  run_upto c df max_hours (S k)
  = bind (run_upto c df max_hours k) (fun st => process_job c max_hours st g).
Proof.
  intros Hg. unfold run_upto. rewrite (take_S_r _ _ _ Hg), run_app.
  destruct (run c max_hours (take k (groupby_job_id df)) (initial_state df))
    as [e|st]; [reflexivity|].
  simpl. by destruct (process_job c max_hours st g).
Qed.

Lemma run_upto_later (c : source_copy) (df : DataFrame) (max_hours : float)
      (k k' : nat) (st : state) :
  k <= k' -> run_upto c df max_hours k = inr st ->
  exists ds pool',
    run_upto c df max_hours k'
    = inr {| assignments := assignments st ++ ds;
             available_carriers := pool' |} /\
    trace c max_hours (available_carriers st)
          (drop k (take k' (groupby_job_id df))) ds pool'.
Proof.
  intros Hk Hst. unfold run_upto in *.
  assert (take k' (groupby_job_id df)
          = take k (groupby_job_id df)
            ++ drop k (take k' (groupby_job_id df))) as Hsplit.
  { rewrite <- (take_drop k (take k' (groupby_job_id df))) at 1.
    by rewrite take_take, Nat.min_l. }
  revert Hsplit. generalize (drop k (take k' (groupby_job_id df))).
  intros rest ->. rewrite run_app, Hst. simpl. apply run_trace.
Qed.

Lemma run_upto_all (c : source_copy) (df : DataFrame) (max_hours : float) :
  assign_jobs c df max_hours
  = bind (run_upto c df max_hours (length (groupby_job_id df)))
         (fun st => inr (assignments st)).
Proof. unfold assign_jobs, run_upto. by rewrite firstn_all. Qed.

Lemma run_upto_length (c : source_copy) (df : DataFrame) (max_hours : float)
      (k : nat) (st : state) :
  k <= length (groupby_job_id df) ->
  run_upto c df max_hours k = inr st -> length (assignments st) = k.
Proof.
  intros Hk. unfold run_upto.
  destruct (run_trace c max_hours (take k (groupby_job_id df))
                      (initial_state df)) as (ds & pool' & -> & Htr).
  intros [= <-]. simpl. apply trace_length in Htr.
  rewrite Htr, length_take. lia.
Qed.

(** Iteration [k] seen from both sides: the state it starts in, the state it
    leaves, the result it appends, and the place of that result in the list
    [assign_jobs] returns. *)
Lemma step_at (c : source_copy) (df : DataFrame) (max_hours : float)
      (k : nat) (g : Z * DataFrame) :
  groupby_job_id df !! k = Some g ->
  exists st d pool' rs,
    run_upto c df max_hours k = inr st /\
    run_upto c df max_hours (S k)
    = inr {| assignments := assignments st ++ [d];
             available_carriers := pool' |} /\
    outcome c max_hours (available_carriers st) g d pool' /\
    assign_jobs c df max_hours = inr rs /\
    rs !! k = Some d.
Proof.
  intros Hg.
  assert (k < length (groupby_job_id df)) as Hk by by eapply lookup_lt_Some.
  destruct (run_trace c max_hours (take k (groupby_job_id df))
                      (initial_state df)) as (ds0 & pool0 & Hrun0 & _).
  fold (run_upto c df max_hours k) in Hrun0.
  set (st := {| assignments := assignments (initial_state df) ++ ds0;
                available_carriers := pool0 |}) in *.
  destruct (process_job_outcome c max_hours st g) as (d & pool1 & Hstep & Hout).
  pose proof (run_upto_S c df max_hours k g Hg) as HS.
  rewrite Hrun0 in HS. simpl in HS. rewrite Hstep in HS.
  destruct (run_upto_later c df max_hours (S k) (length (groupby_job_id df)) _
              ltac:(lia) HS) as (ds2 & pool2 & Hall & _).
  exists st, d, pool1, ((assignments st ++ [d]) ++ ds2).
  split; [exact Hrun0|]. split; [exact HS|]. split; [exact Hout|]. split.
  - rewrite run_upto_all, Hall. reflexivity.
  - pose proof (run_upto_length c df max_hours k st ltac:(lia) Hrun0) as Hlen.
    rewrite <- app_assoc. rewrite lookup_app_r by lia.
    by rewrite Hlen, Nat.sub_diag.
Qed.

Lemma eqb_rank (x y : float) :
  PrimFloat.eqb x y = true <-> exists a, rank x = Some a /\ rank y = Some a.
Proof.
  rewrite FloatAxioms.eqb_spec. unfold SFeqb, rank.
  destruct (sf_rank (Prim2SF x)) as [a|] eqn:Ha.
  2:{ rewrite SFcompare_nan_l by assumption.
      split; [discriminate|intros (? & ? & _); discriminate]. }
  destruct (sf_rank (Prim2SF y)) as [b|] eqn:Hb.
  2:{ rewrite SFcompare_nan_r by assumption.
      split; [discriminate|intros (? & _ & ?); discriminate]. }
  destruct (SFcompare_rank _ _ _ _ Ha Hb) as (c & -> & Hc).
  destruct a as [[a1 a2] a3], b as [[b1 b2] b3].
  split.
  - destruct c; try discriminate. intros _. injection Hc as -> -> ->. eauto.
  - intros (a' & [= <-] & [= -> -> ->]).
    destruct c; [reflexivity| |]; simpl in *; lia.
Qed.

Lemma ltb_not_eqb (x y : float) :
  PrimFloat.ltb x y = true -> PrimFloat.eqb y x = false.
Proof.
  intros Hlt. destruct (PrimFloat.eqb y x) eqn:Heq; [|reflexivity].
  apply ltb_rank in Hlt as (a & b & Ha & Hb & Hab).
  apply eqb_rank in Heq as (d & Hy & Hx).
  assert (a = b) as -> by congruence.
  destruct b as [[b1 b2] b3]. simpl in *. lia.
Qed.

(** Positions in a filtered list against positions in the list. *)
Lemma filter_lookup_before {A : Type} (P : A -> Prop)
      `{!forall x, Decision (P x)} (l : list A) (i : nat) (x : A) :
  filter P l !! i = Some x ->
  exists j : nat,
    l !! j = Some x /\
    forall (j' : nat) (y : A), j' < j -> l !! j' = Some y -> P y ->
      exists i' : nat, i' < i /\ filter P l !! i' = Some y.
Proof.
  revert i. induction l as [|a l IH]; intros i Hi;
    [by rewrite filter_nil, lookup_nil in Hi|].
  rewrite filter_cons in Hi |- *. destruct (decide (P a)) as [Ha|Ha].
  - destruct i as [|i]; simpl in Hi.
    + injection Hi as <-. exists 0. split; [reflexivity|]. intros; lia.
    + destruct (IH i Hi) as (j & Hj & Hbefore).
      exists (S j). split; [exact Hj|].
      intros [|j'] y Hj' Hy HP; simpl in Hy.
      * injection Hy as <-. exists 0. split; [lia|reflexivity].
      * destruct (Hbefore j' y ltac:(lia) Hy HP) as (i' & Hi' & Hlook).
        exists (S i'). split; [lia|exact Hlook].
  - destruct (IH i Hi) as (j & Hj & Hbefore).
    exists (S j). split; [exact Hj|].
    intros [|j'] y Hj' Hy HP; simpl in Hy.
    + injection Hy as <-. done.
    + apply (Hbefore j'); [lia|done..].
Qed.

(** A position in the list of eligible rows of job [j] against the position
    of that row in the input frame: the rows of job [j] that sit earlier in
    the frame, with a carrier in the pool and under the cap, sit earlier in
    the list of eligible rows too. *)
Lemma valid_position_in_frame (max_hours : float) (pool : gset string)
      (df : DataFrame) (j : Z) (i : nat) (best : CandidateRecord) :
  valid_rows max_hours pool (filter (fun r => job_id r = j) df) !! i
  = Some best ->
  exists p : nat,
    df !! p = Some best /\
    forall (p' : nat) (r : CandidateRecord),
      p' < p -> df !! p' = Some r -> job_id r = j ->
      carrier_id r ∈ pool -> can_work max_hours r = true ->
      exists i' : nat,
        i' < i /\
        valid_rows max_hours pool (filter (fun r => job_id r = j) df) !! i'
        = Some r.
Proof.
  unfold valid_rows, isin_available. intros Hi.
  destruct (filter_lookup_before _ _ _ _ Hi) as (i1 & Hi1 & Hcap).
  destruct (filter_lookup_before _ _ _ _ Hi1) as (i2 & Hi2 & Hpool).
  destruct (filter_lookup_before _ _ _ _ Hi2) as (p & Hp & Hjob).
  exists p. split; [exact Hp|].
  intros p' r Hp' Hr Hrj Hrpool Hrcap.
  destruct (Hjob p' r Hp' Hr Hrj) as (i2' & Hi2' & Hr2).
  destruct (Hpool i2' r Hi2' Hr2 Hrpool) as (i1' & Hi1' & Hr1).
  apply (Hcap i1' r Hi1' Hr1 Hrcap).
Qed.

(** An Assigned result is the entry of a row of the input that was under the
    cap. *)
Lemma assigned_result_row (c : source_copy) (df : DataFrame)
      (max_hours : float) (rs : list dict) (k : nat) (d : dict)
      (cid : string) :
  assign_jobs c df max_hours = inr rs ->
  rs !! k = Some d ->
  assigned_carrier d = Some cid ->
  exists r,
    r ∈ df /\ d = assigned_entry c r /\ carrier_id r = cid /\
    can_work max_hours r = true.
Proof.
  intros Hrs Hd Hcid.
  destruct (assign_jobs_trace c df max_hours) as (rs' & pool' & Hrs' & Htr).
  rewrite Hrs in Hrs'. injection Hrs' as <-.
  apply trace_entries in Htr.
  destruct (Forall2_lookup_r _ _ _ _ _ Htr Hd) as (g & Hg & Hgd).
  destruct Hgd as [->|(best & -> & Hbest & Hcap)]; [discriminate|].
  rewrite assigned_carrier_assigned in Hcid. injection Hcid as <-.
  exists best. split; [|done].
  by apply (groupby_rows df g best (list_elem_of_lookup_2 _ _ _ Hg)).
Qed.

(** ** The scenarios of the specification, evaluated *)

Example scenario_two_jobs :
  assign_jobs ml_model_optimizer_py frame_two_jobs default_max_hours
  = inr [assigned_entry ml_model_optimizer_py (row "C1" 0 10 0);
         assigned_entry ml_model_optimizer_py (row "C2" 1 5 0)].
Proof. vm_compute. reflexivity. Qed.

Example scenario_slower_carrier_under_cap :
  assign_jobs ml_model_optimizer_py frame_cap default_max_hours
  = inr [assigned_entry ml_model_optimizer_py (row "Y" 0 50 0)].
Proof. vm_compute. reflexivity. Qed.

Example scenario_shared_carrier :
  assign_jobs ml_model_optimizer_py frame_shared default_max_hours
  = inr [assigned_entry ml_model_optimizer_py (row "C1" 0 10 0);
         unassigned_entry 1].
Proof. vm_compute. reflexivity. Qed.

Example scenario_empty_input (c : source_copy) (max_hours : float) :
  assign_jobs c [] max_hours = inr [].
Proof. reflexivity. Qed.

Example scenario_tie :
  assign_jobs Optimizer_py frame_tie default_max_hours
  = inr [assigned_entry Optimizer_py (row "C2" 0 10 0)].
Proof. vm_compute. reflexivity. Qed.

(** * The claims *)

(** C1 (hour cap).  In every copy, for every input frame and every
    [max_hours], an Assigned result of [assign_jobs] is the entry of a row of
    the input frame whose [carrier_hours_worked], exactly as the input gives
    it, plus [p90_time_min / 60.0] is at most [max_hours]. *)
Theorem hour_cap_respected (c : source_copy) (df : DataFrame)
        (max_hours : float) (rs : list dict) (k : nat) (d : dict)
        (cid : string) :
  assign_jobs c df max_hours = inr rs ->
  rs !! k = Some d ->
  assigned_carrier d = Some cid ->
  exists r,
    r ∈ df /\ d = assigned_entry c r /\ carrier_id r = cid /\
    PrimFloat.leb
      (PrimFloat.add (carrier_hours_worked r)
                     (PrimFloat.div (p90_time_min r) 60%float))
      max_hours = true.
Proof.
  intros Hrs Hd Hcid.
  destruct (assigned_result_row c df max_hours rs k d cid Hrs Hd Hcid)
    as (r & Hr & Hentry & Hcarrier & Hcap).
  exists r. unfold can_work in Hcap. done.
Qed.

Lemma hour_cap_respected_witness :
  exists r,
    r ∈ frame_cap /\
    assigned_entry ml_model_optimizer_py (row "Y" 0 50 0)
    = assigned_entry ml_model_optimizer_py r /\
    carrier_id r = "Y" /\
    PrimFloat.leb
      (PrimFloat.add (carrier_hours_worked r)
                     (PrimFloat.div (p90_time_min r) 60%float))
      default_max_hours = true.
Proof.
  apply (hour_cap_respected ml_model_optimizer_py frame_cap default_max_hours
           [assigned_entry ml_model_optimizer_py (row "Y" 0 50 0)] 0).
  - vm_compute. reflexivity.
  - reflexivity.
  - reflexivity.
Defined.

(** C2 (no double assignment).  In every copy, the carriers of the Assigned
    results of one run are pairwise distinct. *)
Theorem no_double_assignment (c : source_copy) (df : DataFrame)
        (max_hours : float) (rs : list dict) :
  assign_jobs c df max_hours = inr rs ->
  NoDup (omap assigned_carrier rs).
Proof.
  intros Hrs.
  destruct (assign_jobs_trace c df max_hours) as (rs' & pool' & Hrs' & Htr).
  rewrite Hrs in Hrs'. injection Hrs' as <-.
  by apply trace_carriers in Htr as [? _].
Qed.

Lemma no_double_assignment_witness :
  NoDup (omap assigned_carrier
              [assigned_entry Optimizer_py (row "C1" 0 10 0);
               assigned_entry Optimizer_py (row "C2" 1 5 0)]).
Proof.
  apply (no_double_assignment Optimizer_py frame_two_jobs default_max_hours).
  vm_compute. reflexivity.
Defined.

Lemma results_follow_group_keys (c : source_copy) (df : DataFrame)
      (max_hours : float) :
  exists rs,
    assign_jobs c df max_hours = inr rs /\
    Forall2 (fun d j => result_job d = Some j) rs (group_keys df).
Proof.
  destruct (assign_jobs_trace c df max_hours) as (rs & pool' & Hrs & Htr).
  exists rs. split; [exact Hrs|].
  apply trace_entries in Htr. rewrite <- groupby_keys.
  apply Forall2_fmap_r, Forall2_flip.
  apply Forall2_same_length_lookup. split; [by eapply Forall2_length|].
  intros i g d Hg Hd.
  destruct (Forall2_lookup_lr _ _ _ _ _ _ Htr Hg Hd)
    as [->|(best & -> & Hbest & _)]; [reflexivity|].
  rewrite result_job_assigned. simpl. f_equal.
  by apply (groupby_rows df g best (list_elem_of_lookup_2 _ _ _ Hg)).
Qed.

(** C3 (coverage).  In every copy and for every input frame, [assign_jobs]
    returns, and its result list pairs off with the list of the distinct
    [job_id] values of the input: every result carries a job id, no job id
    occurs twice, every job id of the input occurs, and the length of the
    result list is the number of distinct job ids. *)
Theorem one_result_per_job (c : source_copy) (df : DataFrame)
        (max_hours : float) :
  exists rs js,
    assign_jobs c df max_hours = inr rs /\
    Forall2 (fun d j => result_job d = Some j) rs js /\
    NoDup js /\
    (forall j, j ∈ js <-> j ∈ job_id <$> df) /\
    length rs = length (remove_dups (job_id <$> df)).
Proof.
  destruct (results_follow_group_keys c df max_hours) as (rs & Hrs & Hjobs).
  exists rs, (group_keys df). split; [exact Hrs|]. split; [exact Hjobs|].
  split; [apply group_keys_NoDup|]. split; [apply group_keys_elem|].
  rewrite <- group_keys_length. by eapply Forall2_length.
Qed.

(** C5, as the specification states it, fails: the frame [frame_shared] lists
    job 1 before job 0, yet job 0 is processed first, takes the only carrier
    and comes first in the result list. *)
Lemma first_appearance_order_refuted :
  exists rs,
    assign_jobs Optimizer_py frame_shared default_max_hours = inr rs /\
    rs = [assigned_entry Optimizer_py (row "C1" 0 10 0); unassigned_entry 1] /\
    first_appearance_order (job_id <$> frame_shared) = [1; 0]%Z /\
    omap result_job rs <> first_appearance_order (job_id <$> frame_shared).
Proof.
  eexists. split; [vm_compute; reflexivity|]. split; [reflexivity|].
  split; [reflexivity|]. vm_compute. discriminate.
Qed.

(** C5, amended.  In every copy, jobs are processed, and their results
    returned, in increasing order of [job_id], whatever the order of the rows
    of the input: the groups of the loop and the results both follow the
    strictly increasing list of the distinct job ids of the input. *)
Theorem results_in_increasing_job_order (c : source_copy) (df : DataFrame)
        (max_hours : float) :
  exists rs js,
    assign_jobs c df max_hours = inr rs /\
    fst <$> groupby_job_id df = js /\
    Forall2 (fun d j => result_job d = Some j) rs js /\
    StronglySorted Z.lt js /\
    (forall j, j ∈ js <-> j ∈ job_id <$> df).
Proof.
  destruct (results_follow_group_keys c df max_hours) as (rs & Hrs & Hjobs).
  exists rs, (group_keys df). split; [exact Hrs|].
  split; [apply groupby_keys|]. split; [exact Hjobs|].
  split; [apply group_keys_sorted|apply group_keys_elem].
Qed.

(** C4 (fastest eligible carrier).  In every copy, let the [k]-th iteration
    handle job [j].  The loop reaches that iteration in some state [st] and
    [assign_jobs] returns; if the [k]-th result is Assigned, it is the entry
    of a row [best] of job [j] whose carrier is in the pool of [st] and under
    the cap, and no row of the input for job [j] whose carrier is in that
    pool and under the cap has a strictly smaller predicted time. *)
Theorem assigned_time_minimal (c : source_copy) (df : DataFrame)
        (max_hours : float) (k : nat) (j : Z) (job_group : DataFrame) :
  groupby_job_id df !! k = Some (j, job_group) ->
  exists st rs,
    run_upto c df max_hours k = inr st /\
    assign_jobs c df max_hours = inr rs /\
    forall d cid,
      rs !! k = Some d -> assigned_carrier d = Some cid ->
      exists best,
        d = assigned_entry c best /\
        best ∈ df /\ job_id best = j /\ carrier_id best = cid /\
        cid ∈ available_carriers st /\ can_work max_hours best = true /\
        forall r,
          r ∈ df -> job_id r = j ->
          carrier_id r ∈ available_carriers st ->
          can_work max_hours r = true ->
          PrimFloat.ltb (p90_time_min r) (p90_time_min best) = false.
Proof.
  intros Hg.
  pose proof (list_elem_of_lookup_2 _ _ _ Hg) as Hgin.
  destruct (step_at c df max_hours k _ Hg)
    as (st & d & pool' & rs & Hst & _ & Hout & Hrs & Hd).
  exists st, rs. split; [exact Hst|]. split; [exact Hrs|].
  intros d' cid Hd' Hcid. rewrite Hd in Hd'. injection Hd' as <-.
  apply outcome_entry in Hout as [[-> _]|(i & best & -> & Hbest & Hmin & _)];
    [discriminate|].
  rewrite assigned_carrier_assigned in Hcid. injection Hcid as <-.
  simpl in *. exists best.
  pose proof (list_elem_of_lookup_2 _ _ _ Hbest) as Hin.
  apply valid_rows_elem in Hin as (Hin & Hpool & Hcap).
  apply (groupby_rows df _ best Hgin) in Hin as [Hdf Hjob].
  repeat (split; [done|]).
  intros r Hr Hrj Hrpool Hrcap. apply Hmin, valid_rows_elem.
  split; [|done]. by apply (groupby_rows df _ r Hgin).
Qed.

Lemma assigned_time_minimal_witness :
  exists st rs,
    run_upto Optimizer_py frame_two_jobs default_max_hours 1 = inr st /\
    assign_jobs Optimizer_py frame_two_jobs default_max_hours = inr rs /\
    forall d cid,
      rs !! 1 = Some d -> assigned_carrier d = Some cid ->
      exists best,
        d = assigned_entry Optimizer_py best /\
        best ∈ frame_two_jobs /\ job_id best = 1%Z /\ carrier_id best = cid /\
        cid ∈ available_carriers st /\
        can_work default_max_hours best = true /\
        forall r,
          r ∈ frame_two_jobs -> job_id r = 1%Z ->
          carrier_id r ∈ available_carriers st ->
          can_work default_max_hours r = true ->
          PrimFloat.ltb (p90_time_min r) (p90_time_min best) = false.
Proof.
  apply (assigned_time_minimal Optimizer_py frame_two_jobs default_max_hours 1
           1 [row "C1" 1 30 0; row "C2" 1 5 0]).
  vm_compute. reflexivity.
Defined.

(** C6 (the pool never grows).  In every copy, the [k]-th iteration starts in
    a state [st] and ends in a state [st'] with one more result [d].  If [d]
    is Unassigned the pool is unchanged; if [d] is Assigned to [cid], then
    [cid] was in the pool and the new pool is the old one without [cid].
    The pool does not get larger, and the pool of every later state of the
    run is included in the pool of [st']: a removed carrier never returns. *)
Theorem pool_never_grows (c : source_copy) (df : DataFrame)
        (max_hours : float) (k : nat) (g : Z * DataFrame) :
  groupby_job_id df !! k = Some g ->
  exists st st' d,
    run_upto c df max_hours k = inr st /\
    run_upto c df max_hours (S k) = inr st' /\
    assignments st' = assignments st ++ [d] /\
    match assigned_carrier d with
    | None => available_carriers st' = available_carriers st
    | Some cid =>
        cid ∈ available_carriers st /\
        available_carriers st' = available_carriers st ∖ {[cid]}
    end /\
    size (available_carriers st') <= size (available_carriers st) /\
    forall k' st'',
      S k <= k' -> run_upto c df max_hours k' = inr st'' ->
      available_carriers st'' ⊆ available_carriers st'.
Proof.
  intros Hg.
  destruct (step_at c df max_hours k _ Hg)
    as (st & d & pool' & rs & Hst & Hst' & Hout & _ & _).
  eexists st, _, d. split; [exact Hst|]. split; [exact Hst'|].
  split; [reflexivity|]. apply outcome_pool in Hout. simpl.
  split; [exact Hout|]. split.
  - apply subseteq_size.
    destruct (assigned_carrier d); [destruct Hout as [_ ->]|subst pool'];
      apply elem_of_subseteq; intros x Hx; [|done].
    by apply elem_of_difference in Hx as [? _].
  - intros k' st'' Hk' Hst''.
    destruct (run_upto_later c df max_hours (S k) k' _ Hk' Hst')
      as (ds & pool'' & Hlater & Htr).
    rewrite Hst'' in Hlater. injection Hlater as ->.
    simpl. by apply trace_subseteq in Htr.
Qed.

Lemma pool_never_grows_witness :
  exists st st' d,
    run_upto Optimizer_py frame_two_jobs default_max_hours 0 = inr st /\
    run_upto Optimizer_py frame_two_jobs default_max_hours 1 = inr st' /\
    assignments st' = assignments st ++ [d] /\
    match assigned_carrier d with
    | None => available_carriers st' = available_carriers st
    | Some cid =>
        cid ∈ available_carriers st /\
        available_carriers st' = available_carriers st ∖ {[cid]}
    end /\
    size (available_carriers st') <= size (available_carriers st) /\
    forall k' st'',
      1 <= k' ->
      run_upto Optimizer_py frame_two_jobs default_max_hours k' = inr st'' ->
      available_carriers st'' ⊆ available_carriers st'.
Proof.
  apply (pool_never_grows Optimizer_py frame_two_jobs default_max_hours 0
           (0%Z, [row "C1" 0 10 0; row "C2" 0 20 0])).
  vm_compute. reflexivity.
Defined.

(** C7, as the specification states it, fails: with every candidate over the
    default cap of 9.0 hours the reason is not the string with [9.0] in it,
    and the reason is the same under a cap of 8.0 hours. *)
Lemma interpolated_reason_refuted :
  exists d,
    assign_jobs ml_model_optimizer_py frame_all_over default_max_hours
    = inr [d] /\
    assign_jobs ml_model_optimizer_py frame_all_over 8%float = inr [d] /\
    dict_get "carrier_id" d = Some VNone /\
    dict_get "reason" d = Some (VStr "No eligible carriers under 9-hour limit") /\
    dict_get "reason" d <> Some (VStr spec_reason_default).
Proof.
  eexists. split; [vm_compute; reflexivity|]. split; [vm_compute; reflexivity|].
  split; [reflexivity|]. split; [reflexivity|]. vm_compute. discriminate.
Qed.

(** C7, amended.  In every copy and for every [max_hours], when the [k]-th
    iteration handles job [j] and finds no row of that job whose carrier is
    still in the pool and under the cap, the [k]-th result is the Unassigned
    entry of job [j]: [carrier_id] is [None] and the reason is the fixed
    string "No eligible carriers under 9-hour limit", whatever [max_hours]
    is. *)
Theorem unassigned_reason_is_fixed (c : source_copy) (df : DataFrame)
        (max_hours : float) (k : nat) (j : Z) (job_group : DataFrame) :
  groupby_job_id df !! k = Some (j, job_group) ->
  exists st rs,
    run_upto c df max_hours k = inr st /\
    assign_jobs c df max_hours = inr rs /\
    (valid_rows max_hours (available_carriers st) job_group = [] ->
     rs !! k = Some [("job_id", VInt j);
                     ("carrier_id", VNone);
                     ("reason", VStr "No eligible carriers under 9-hour limit")]).
Proof.
  intros Hg.
  destruct (step_at c df max_hours k _ Hg)
    as (st & d & pool' & rs & Hst & _ & Hout & Hrs & Hd).
  exists st, rs. split; [exact Hst|]. split; [exact Hrs|].
  intros Hnone. rewrite Hd. f_equal.
  apply outcome_entry in Hout as [[-> _]|(i & best & _ & Hbest & _)];
    [reflexivity|].
  simpl in Hbest. rewrite Hnone in Hbest. discriminate.
Qed.

Lemma unassigned_reason_is_fixed_witness :
  exists st rs,
    run_upto Optimizer_py frame_shared 8%float 1 = inr st /\
    assign_jobs Optimizer_py frame_shared 8%float = inr rs /\
    (valid_rows 8%float (available_carriers st) [row "C1" 1 10 0] = [] ->
     rs !! 1 = Some [("job_id", VInt 1);
                     ("carrier_id", VNone);
                     ("reason", VStr "No eligible carriers under 9-hour limit")]).
Proof.
  apply (unassigned_reason_is_fixed Optimizer_py frame_shared 8%float 1 1
           [row "C1" 1 10 0]).
  vm_compute. reflexivity.
Defined.

(** C8, as the specification states it, fails: the Assigned result of
    [src/Optimizer.py] has three fields and no [carrier_hours_before]. *)
Lemma four_fields_refuted :
  exists d,
    assign_jobs Optimizer_py frame_cap default_max_hours = inr [d] /\
    assigned_carrier d = Some "Y" /\
    dict_keys d = ["job_id"; "carrier_id"; "p90_time_min"] /\
    dict_get "carrier_hours_before" d = None.
Proof.
  eexists. split; [vm_compute; reflexivity|]. repeat split.
Qed.

(** C8, amended.  Every Assigned result is built from one row [r] of the
    input.  In [src/ml_model/optimizer.py] it has the four fields [job_id],
    [carrier_id], [p90_time_min] and [carrier_hours_before], the last being
    the [carrier_hours_worked] of [r]; in [src/Optimizer.py] and in the
    Lambda copy it has the three fields [job_id], [carrier_id] and
    [p90_time_min]. *)
Theorem assigned_result_fields (c : source_copy) (df : DataFrame)
        (max_hours : float) (rs : list dict) (k : nat) (d : dict)
        (cid : string) :
  assign_jobs c df max_hours = inr rs ->
  rs !! k = Some d ->
  assigned_carrier d = Some cid ->
  exists r,
    r ∈ df /\ carrier_id r = cid /\
    d = match c with
        | ml_model_optimizer_py =>
            [("job_id", VInt (job_id r));
             ("carrier_id", VStr cid);
             ("p90_time_min", VFloat (p90_time_min r));
             ("carrier_hours_before", VFloat (carrier_hours_worked r))]
        | Optimizer_py | optimizer_lambda_py =>
            [("job_id", VInt (job_id r));
             ("carrier_id", VStr cid);
             ("p90_time_min", VFloat (p90_time_min r))]
        end.
Proof.
  intros Hrs Hd Hcid.
  destruct (assigned_result_row c df max_hours rs k d cid Hrs Hd Hcid)
    as (r & Hr & -> & <- & _).
  exists r. split; [exact Hr|]. split; [reflexivity|]. by destruct c.
Qed.

Lemma assigned_result_fields_witness :
  exists r,
    r ∈ frame_cap /\ carrier_id r = "Y" /\
    assigned_entry ml_model_optimizer_py (row "Y" 0 50 0)
    = [("job_id", VInt (job_id r));
       ("carrier_id", VStr "Y");
       ("p90_time_min", VFloat (p90_time_min r));
       ("carrier_hours_before", VFloat (carrier_hours_worked r))].
Proof.
  apply (assigned_result_fields ml_model_optimizer_py frame_cap
           default_max_hours
           [assigned_entry ml_model_optimizer_py (row "Y" 0 50 0)] 0).
  - vm_compute. reflexivity.
  - reflexivity.
  - reflexivity.
Defined.

(** C9, as the specification states it, fails: a row whose predicted time is
    missing is not rejected; every copy returns a result list for it. *)
Lemma missing_value_not_rejected :
  Exists (fun r => PrimFloat.is_nan (p90_time_min r) = true) frame_missing /\
  assign_jobs Optimizer_py frame_missing default_max_hours
  = inr [unassigned_entry 0] /\
  assign_jobs ml_model_optimizer_py frame_missing default_max_hours
  = inr [unassigned_entry 0] /\
  assign_jobs optimizer_lambda_py frame_missing default_max_hours
  = inr [unassigned_entry 0].
Proof.
  split; [by left|]. repeat split; vm_compute; reflexivity.
Qed.

(** C9, amended.  No copy validates its input or raises on it: for every
    frame, the empty one and those with missing numeric cells included,
    [assign_jobs] returns a result list.  A row whose predicted time or whose
    hours worked is missing (NaN) is never selected. *)
Theorem assign_jobs_never_raises (c : source_copy) (df : DataFrame)
        (max_hours : float) :
  exists rs,
    assign_jobs c df max_hours = inr rs /\
    forall k d cid,
      rs !! k = Some d -> assigned_carrier d = Some cid ->
      exists r,
        r ∈ df /\ d = assigned_entry c r /\
        PrimFloat.is_nan (p90_time_min r) = false /\
        PrimFloat.is_nan (carrier_hours_worked r) = false.
Proof.
  destruct (assign_jobs_trace c df max_hours) as (rs & pool' & Hrs & _).
  exists rs. split; [exact Hrs|]. intros k d cid Hd Hcid.
  destruct (assigned_result_row c df max_hours rs k d cid Hrs Hd Hcid)
    as (r & Hr & -> & _ & Hcap).
  exists r. split; [exact Hr|]. split; [reflexivity|].
  by apply can_work_not_nan in Hcap.
Qed.

(** C10 (ties).  In every copy, let the [k]-th iteration handle job [j],
    and let some row of the input for job [j] have its carrier in the pool
    and be under the cap.  Then the [k]-th result is the entry of a row
    [best] that sits at some position [p] of the input frame, is a row of
    job [j], has its carrier in the pool and is under the cap; no such row
    of the input is strictly faster; and every such row of the input whose
    predicted time equals the one of [best] sits at position [p] or later in
    the input.  So among tied candidates the one that comes first in the
    input is selected. *)
Theorem tie_goes_to_first_row (c : source_copy) (df : DataFrame)
        (max_hours : float) (k : nat) (j : Z) (job_group : DataFrame) :
  groupby_job_id df !! k = Some (j, job_group) ->
  exists st rs,
    run_upto c df max_hours k = inr st /\
    assign_jobs c df max_hours = inr rs /\
    forall r0,
      r0 ∈ df -> job_id r0 = j ->
      carrier_id r0 ∈ available_carriers st ->
      can_work max_hours r0 = true ->
      exists (p : nat) (best : CandidateRecord),
        df !! p = Some best /\
        job_id best = j /\
        carrier_id best ∈ available_carriers st /\
        can_work max_hours best = true /\
        rs !! k = Some (assigned_entry c best) /\
        (forall r,
           r ∈ df -> job_id r = j ->
           carrier_id r ∈ available_carriers st ->
           can_work max_hours r = true ->
           PrimFloat.ltb (p90_time_min r) (p90_time_min best) = false) /\
        (forall (p' : nat) (r : CandidateRecord),
           df !! p' = Some r -> job_id r = j ->
           carrier_id r ∈ available_carriers st ->
           can_work max_hours r = true ->
           PrimFloat.eqb (p90_time_min r) (p90_time_min best) = true ->
           p <= p').
Proof.
  intros Hg.
  pose proof (list_elem_of_lookup_2 _ _ _ Hg) as Hgin.
  assert (job_group = filter (fun r => job_id r = j) df) as Hgroup.
  { unfold groupby_job_id in Hg.
    apply list_lookup_fmap_Some_1 in Hg as (j' & [= -> ->] & _). done. }
  destruct (step_at c df max_hours k _ Hg)
    as (st & d & pool' & rs & Hst & _ & Hout & Hrs & Hd).
  exists st, rs. split; [exact Hst|]. split; [exact Hrs|].
  intros r0 Hr0 Hj0 Hpool0 Hcap0. simpl in Hout.
  assert (r0 ∈ valid_rows max_hours (available_carriers st) job_group) as Hin0.
  { apply valid_rows_elem. split; [|done].
    by apply (groupby_rows df _ r0 Hgin). }
  apply outcome_entry in Hout
    as [[_ Hnone]|(i & best & -> & Hbest & Hmin & Hfirst)]; simpl in *.
  { rewrite Hnone in Hin0. by apply elem_of_nil in Hin0. }
  pose proof (list_elem_of_lookup_2 _ _ _ Hbest) as Hin.
  apply valid_rows_elem in Hin as (Hin & Hpool & Hcap).
  apply (groupby_rows df _ best Hgin) in Hin as [_ Hjob]. simpl in Hjob.
  rewrite Hgroup in Hbest, Hmin, Hfirst.
  destruct (valid_position_in_frame _ _ _ _ _ _ Hbest) as (p & Hp & Hbefore).
  exists p, best. repeat (split; [done|]). split.
  - intros r Hr Hrj Hrpool Hrcap. apply Hmin, valid_rows_elem.
    split; [|done]. by apply list_elem_of_filter.
  - intros p' r Hr Hrj Hrpool Hrcap Htie.
    destruct (decide (p <= p')) as [|Hlt]; [done|].
    destruct (Hbefore p' r ltac:(lia) Hr Hrj Hrpool Hrcap) as (i' & Hi' & Hr').
    pose proof (ltb_not_eqb _ _ (Hfirst i' r Hi' Hr')) as Hne.
    congruence.
Qed.

Lemma tie_goes_to_first_row_witness :
  exists st rs,
    run_upto optimizer_lambda_py frame_tie default_max_hours 0 = inr st /\
    assign_jobs optimizer_lambda_py frame_tie default_max_hours = inr rs /\
    forall r0,
      r0 ∈ frame_tie -> job_id r0 = 0%Z ->
      carrier_id r0 ∈ available_carriers st ->
      can_work default_max_hours r0 = true ->
      exists (p : nat) (best : CandidateRecord),
        frame_tie !! p = Some best /\
        job_id best = 0%Z /\
        carrier_id best ∈ available_carriers st /\
        can_work default_max_hours best = true /\
        rs !! 0 = Some (assigned_entry optimizer_lambda_py best) /\
        (forall r,
           r ∈ frame_tie -> job_id r = 0%Z ->
           carrier_id r ∈ available_carriers st ->
           can_work default_max_hours r = true ->
           PrimFloat.ltb (p90_time_min r) (p90_time_min best) = false) /\
        (forall (p' : nat) (r : CandidateRecord),
           frame_tie !! p' = Some r -> job_id r = 0%Z ->
           carrier_id r ∈ available_carriers st ->
           can_work default_max_hours r = true ->
           PrimFloat.eqb (p90_time_min r) (p90_time_min best) = true ->
           p <= p').
Proof.
  apply (tie_goes_to_first_row optimizer_lambda_py frame_tie default_max_hours
           0 0 frame_tie).
  vm_compute. reflexivity.
Defined.

(** * Further properties of the loop *)

Lemma trace_pool (c : source_copy) (max_hours : float) (pool : gset string)
      (gs : list (Z * DataFrame)) (ds : list dict) (pool' : gset string) :
  trace c max_hours pool gs ds pool' ->
  pool' = pool ∖ list_to_set (omap assigned_carrier ds).
Proof.
  induction 1 as [|pool g d pool1 gs ds pool2 Hout _ IH].
  - simpl. by rewrite difference_empty_L.
  - apply outcome_pool in Hout. simpl.
    destruct (assigned_carrier d) as [cid|].
    + destruct Hout as [_ ->]. rewrite list_to_set_cons.
      by rewrite <- difference_difference_l_L.
    + by subst pool1.
Qed.

Lemma run_upto_0 (c : source_copy) (df : DataFrame) (max_hours : float) :
  run_upto c df max_hours 0 = inr (initial_state df).
Proof. unfold run_upto. by rewrite take_0. Qed.

Lemma length_omap_le {A B : Type} (f : A -> option B) (l : list A) :
  length (omap f l) <= length l.
Proof.
  induction l as [|x l IH]; csimpl; [lia|].
  destruct (f x); csimpl; lia.
Qed.

(** X1.  A job ends Unassigned exactly when every row of that job has its
    carrier already taken by an earlier job or is over the cap; as soon as
    one row of the job has a free carrier under the cap, the job is
    Assigned. *)
Theorem unassigned_iff_no_free_carrier_under_cap
        (c : source_copy) (df : DataFrame) (max_hours : float) (k : nat)
        (j : Z) (job_group : DataFrame) :
  groupby_job_id df !! k = Some (j, job_group) ->
  exists st rs d,
    run_upto c df max_hours k = inr st /\
    assign_jobs c df max_hours = inr rs /\
    rs !! k = Some d /\
    (assigned_carrier d = None <->
     forall r, r ∈ df -> job_id r = j ->
               carrier_id r ∈ available_carriers st ->
               can_work max_hours r = false).
Proof.
  intros Hg.
  pose proof (list_elem_of_lookup_2 _ _ _ Hg) as Hgin.
  destruct (step_at c df max_hours k _ Hg)
    as (st & d & pool' & rs & Hst & _ & Hout & Hrs & Hd).
  exists st, rs, d. split; [exact Hst|]. split; [exact Hrs|].
  split; [exact Hd|]. simpl in Hout.
  apply outcome_entry in Hout as [[-> Hnone]|(i & best & -> & Hbest & _)];
    simpl in *.
  - split; [|reflexivity]. intros _ r Hr Hj Hpool.
    destruct (can_work max_hours r) eqn:Hcap; [|reflexivity].
    assert (r ∈ valid_rows max_hours (available_carriers st) job_group) as Hin.
    { apply valid_rows_elem. split; [|done].
      by apply (groupby_rows df _ r Hgin). }
    rewrite Hnone in Hin. by apply elem_of_nil in Hin.
  - rewrite assigned_carrier_assigned. split; [discriminate|].
    intros Hall. apply list_elem_of_lookup_2, valid_rows_elem in Hbest
      as (Hin & Hpool & Hcap).
    apply (groupby_rows df _ best Hgin) in Hin as [Hdf Hjob].
    rewrite (Hall best Hdf Hjob Hpool) in Hcap. discriminate.
Qed.

Lemma unassigned_iff_no_free_carrier_under_cap_witness :
  exists st rs d,
    run_upto Optimizer_py frame_shared default_max_hours 1 = inr st /\
    assign_jobs Optimizer_py frame_shared default_max_hours = inr rs /\
    rs !! 1 = Some d /\
    (assigned_carrier d = None <->
     forall r, r ∈ frame_shared -> job_id r = 1%Z ->
               carrier_id r ∈ available_carriers st ->
               can_work default_max_hours r = false).
Proof.
  apply (unassigned_iff_no_free_carrier_under_cap Optimizer_py frame_shared
           default_max_hours 1 1 [row "C1" 1 10 0]).
  vm_compute. reflexivity.
Defined.

(** X2.  After any number of iterations the pool is the set of the carriers
    of the input without the carriers of the Assigned results so far: a
    carrier leaves the pool exactly by being assigned. *)
Theorem pool_is_carriers_minus_assigned
        (c : source_copy) (df : DataFrame) (max_hours : float) (k : nat)
        (st : state) :
  run_upto c df max_hours k = inr st ->
  available_carriers st
  = list_to_set (carrier_id <$> df)
    ∖ list_to_set (omap assigned_carrier (assignments st)).
Proof.
  intros Hst.
  destruct (run_upto_later c df max_hours 0 k (initial_state df)
              ltac:(lia) (run_upto_0 c df max_hours))
    as (ds & pool' & Hrun & Htr).
  rewrite Hst in Hrun. injection Hrun as ->. simpl.
  by apply trace_pool in Htr.
Qed.

Lemma pool_is_carriers_minus_assigned_witness :
  available_carriers state_after_first_job
  = list_to_set (carrier_id <$> frame_two_jobs)
    ∖ list_to_set (omap assigned_carrier (assignments state_after_first_job)).
Proof.
  apply (pool_is_carriers_minus_assigned Optimizer_py frame_two_jobs
           default_max_hours 1 state_after_first_job).
  vm_compute. reflexivity.
Defined.

(** X3.  One run assigns at most as many jobs as the input has distinct
    carriers, and at most as many as it has distinct jobs. *)
Theorem assigned_count_bounded (c : source_copy) (df : DataFrame)
        (max_hours : float) :
  exists rs,
    assign_jobs c df max_hours = inr rs /\
    length (omap assigned_carrier rs) <= nunique (carrier_id <$> df) /\
    length (omap assigned_carrier rs) <= length (remove_dups (job_id <$> df)).
Proof.
  destruct (assign_jobs_trace c df max_hours) as (rs & pool' & Hrs & Htr).
  exists rs. split; [exact Hrs|]. split.
  - apply trace_carriers in Htr as [Hnd Hin].
    unfold nunique. apply submseteq_length, NoDup_submseteq; [exact Hnd|].
    intros cid Hcid. apply Hin in Hcid as [Hcid _].
    apply elem_of_remove_dups. by apply elem_of_list_to_set in Hcid.
  - etrans; [apply length_omap_le|].
    apply trace_length in Htr. rewrite Htr, groupby_length.
    by rewrite group_keys_length.
Qed.

Lemma first_appearance_order_elem (js : list Z) (j : Z) :
  j ∈ first_appearance_order js <-> j ∈ js.
Proof.
  induction js as [|x js IH]; simpl; [done|].
  rewrite !elem_of_cons, list_elem_of_filter, IH.
  destruct (decide (j = x)); tauto.
Qed.

Lemma StronglySorted_filter_lt (P : Z -> Prop) `{!forall x, Decision (P x)}
      (l : list Z) :
  StronglySorted Z.lt l -> StronglySorted Z.lt (filter P l).
Proof.
  induction 1 as [|x l Hl IH Hx]; [constructor|].
  rewrite filter_cons. destruct (decide (P x)); [|done].
  constructor; [done|]. rewrite Forall_forall in Hx |- *.
  intros y [_ Hy]%list_elem_of_filter. by apply Hx.
Qed.

Lemma first_appearance_order_sorted (js : list Z) :
  StronglySorted Z.le js -> StronglySorted Z.lt (first_appearance_order js).
Proof.
  induction 1 as [|x js Hjs IH Hx]; simpl; [constructor|].
  constructor; [by apply StronglySorted_filter_lt|].
  rewrite Forall_forall in Hx |- *.
  intros y [Hne Hy]%list_elem_of_filter.
  apply first_appearance_order_elem, Hx in Hy. lia.
Qed.

Lemma StronglySorted_lt_NoDup (l : list Z) : StronglySorted Z.lt l -> NoDup l.
Proof.
  induction 1 as [|x l Hl IH Hx]; constructor; [|done].
  rewrite Forall_forall in Hx. intros Hin. apply Hx in Hin. lia.
Qed.

Lemma StronglySorted_lt_unique (l1 l2 : list Z) :
  StronglySorted Z.lt l1 -> StronglySorted Z.lt l2 ->
  (forall j, j ∈ l1 <-> j ∈ l2) -> l1 = l2.
Proof.
  intros H1 H2 Hsame. apply (StronglySorted_unique_strong Z.lt); [|done..|].
  - intros x1 x2 _ _ ? ?. lia.
  - apply NoDup_Permutation; [by apply StronglySorted_lt_NoDup..|done].
Qed.

Lemma group_keys_sorted_input (df : DataFrame) :
  StronglySorted Z.le (job_id <$> df) ->
  group_keys df = first_appearance_order (job_id <$> df).
Proof.
  intros Hsorted. apply StronglySorted_lt_unique.
  - apply group_keys_sorted.
  - by apply first_appearance_order_sorted.
  - intros j. by rewrite group_keys_elem, first_appearance_order_elem.
Qed.

(** X4.  When the job ids of the input never decrease from one row to the
    next, the loop handles the jobs, and returns their results, in the order
    in which the job ids first appear in the input. *)
Theorem sorted_input_is_processed_in_input_order
        (c : source_copy) (df : DataFrame) (max_hours : float) :
  StronglySorted Z.le (job_id <$> df) ->
  exists rs,
    assign_jobs c df max_hours = inr rs /\
    fst <$> groupby_job_id df = first_appearance_order (job_id <$> df) /\
    Forall2 (fun d j => result_job d = Some j) rs
            (first_appearance_order (job_id <$> df)).
Proof.
  intros Hsorted.
  destruct (results_follow_group_keys c df max_hours) as (rs & Hrs & Hjobs).
  exists rs. split; [exact Hrs|].
  rewrite groupby_keys, <- (group_keys_sorted_input df Hsorted). done.
Qed.

Lemma sorted_input_is_processed_in_input_order_witness :
  exists rs,
    assign_jobs Optimizer_py frame_two_jobs default_max_hours = inr rs /\
    fst <$> groupby_job_id frame_two_jobs
    = first_appearance_order (job_id <$> frame_two_jobs) /\
    Forall2 (fun d j => result_job d = Some j) rs
            (first_appearance_order (job_id <$> frame_two_jobs)).
Proof.
  apply (sorted_input_is_processed_in_input_order Optimizer_py frame_two_jobs
           default_max_hours).
  simpl. repeat constructor; lia.
Defined.

Lemma run_none_under_cap (c : source_copy) (max_hours : float)
      (gs : list (Z * DataFrame)) (st : state) :
  Forall (fun g => forall r, r ∈ g.2 -> can_work max_hours r = false) gs ->
  run c max_hours gs st
  = inr {| assignments := assignments st ++ (unassigned_entry <$> (fst <$> gs));
           available_carriers := available_carriers st |}.
Proof.
  intros Hgs. revert st.
  induction Hgs as [|g gs Hg _ IH]; intros st.
  - simpl. rewrite app_nil_r. by destruct st.
  - simpl. unfold process_job.
    assert (valid_rows max_hours (available_carriers st) g.2 = []) as ->.
    { destruct (valid_rows max_hours (available_carriers st) g.2)
        as [|r rest] eqn:Hvalid; [reflexivity|].
      assert (r ∈ valid_rows max_hours (available_carriers st) g.2) as Hr
        by (rewrite Hvalid; left).
      apply valid_rows_elem in Hr as (Hr & _ & Hcap).
      rewrite (Hg r Hr) in Hcap. discriminate. }
    simpl. rewrite IH. simpl. by rewrite <- app_assoc.
Qed.

(** X5.  When no row of the input is under the cap, every job ends
    Unassigned: the result list is the Unassigned entry of each job, in
    increasing order of job id. *)
Theorem no_row_under_cap_all_unassigned
        (c : source_copy) (df : DataFrame) (max_hours : float) :
  (forall r, r ∈ df -> can_work max_hours r = false) ->
  assign_jobs c df max_hours = inr (unassigned_entry <$> group_keys df).
Proof.
  intros Hnone. unfold assign_jobs. rewrite run_none_under_cap.
  - simpl. by rewrite groupby_keys.
  - apply Forall_forall. intros g Hg r Hr.
    apply (groupby_rows df g r Hg) in Hr as [Hr _]. by apply Hnone.
Qed.

Lemma no_row_under_cap_all_unassigned_witness :
  assign_jobs ml_model_optimizer_py frame_all_over default_max_hours
  = inr (unassigned_entry <$> group_keys frame_all_over).
Proof.
  apply (no_row_under_cap_all_unassigned ml_model_optimizer_py frame_all_over
           default_max_hours).
  intros r Hr. unfold frame_all_over in Hr.
  apply elem_of_cons in Hr as [->|Hr]; [vm_compute; reflexivity|].
  apply elem_of_cons in Hr as [->|Hr]; [vm_compute; reflexivity|].
  by apply elem_of_nil in Hr.
Defined.

(** X6.  A cap that is not a number rejects every row: with [max_hours]
    NaN, [assign_jobs] raises nothing and reports every job Unassigned. *)
Theorem nan_cap_all_unassigned (c : source_copy) (df : DataFrame) :
  assign_jobs c df PrimFloat.nan = inr (unassigned_entry <$> group_keys df).
Proof.
  unfold assign_jobs. rewrite run_none_under_cap.
  - simpl. by rewrite groupby_keys.
  - apply Forall_forall. intros g _ r _.
    unfold can_work. destruct (PrimFloat.leb _ PrimFloat.nan) eqn:Hle;
      [|reflexivity].
    apply leb_rank in Hle as (a & b & _ & Hb & _). discriminate.
Qed.

(** * The frames the callers build *)

Lemma index_job_id_nat (n i : nat) : index_job_id n i = Z.of_nat (i / n).
Proof. unfold index_job_id. by rewrite Nat2Z.inj_div. Qed.

Lemma filter_none {A : Type} (P : A -> Prop) `{!forall x, Decision (P x)}
      (l : list A) :
  Forall (fun x => ~ P x) l -> filter P l = [].
Proof.
  induction 1 as [|x l Hx _ IH]; [reflexivity|].
  by rewrite filter_cons_False.
Qed.

Lemma filter_all {A : Type} (P : A -> Prop) `{!forall x, Decision (P x)}
      (l : list A) :
  Forall P l -> filter P l = l.
Proof.
  induction 1 as [|x l Hx _ IH]; [reflexivity|].
  rewrite filter_cons_True by done. by rewrite IH.
Qed.

Lemma div_chunk (n k i : nat) : 0 < n -> i / n = k <-> k * n <= i < k * n + n.
Proof.
  intros Hn. pose proof (Nat.div_mod_eq i n) as Hdiv.
  pose proof (Nat.mod_upper_bound i n ltac:(lia)) as Hmod.
  split; [intros <-; lia|]. intros Hi.
  symmetry. apply (Nat.div_unique i n k (i - k * n)); lia.
Qed.

(** The rows with job id [k] of a frame numbered by [index // n] are the
    [n] rows from position [k * n] on. *)
Lemma filter_chunk (n k : nat) (df : DataFrame) :
  0 < n ->
  (forall i r, df !! i = Some r -> job_id r = index_job_id n i) ->
  filter (fun r => job_id r = Z.of_nat k) df = take n (drop (k * n) df).
Proof.
  intros Hn Hidx.
  rewrite <- (take_drop (k * n) df) at 1.
  rewrite <- (take_drop n (drop (k * n) df)) at 1.
  rewrite !filter_app.
  rewrite (filter_none _ (take (k * n) df)), (filter_all _ (take n _)),
    (filter_none _ (drop n _)); [by rewrite app_nil_r| | |].
  - apply Forall_lookup_2. intros i r Hr.
    rewrite !lookup_drop in Hr. apply Hidx in Hr. rewrite Hr, index_job_id_nat.
    intros Heq%Nat2Z.inj. apply div_chunk in Heq; lia.
  - apply Forall_lookup_2. intros i r [Hr Hi]%lookup_take_Some.
    rewrite lookup_drop in Hr. apply Hidx in Hr. rewrite Hr, index_job_id_nat.
    f_equal. apply div_chunk; lia.
  - apply Forall_lookup_2. intros i r [Hr Hi]%lookup_take_Some.
    apply Hidx in Hr. rewrite Hr, index_job_id_nat.
    intros Heq%Nat2Z.inj. apply div_chunk in Heq; lia.
Qed.

Lemma seq_sorted (a m : nat) : StronglySorted Z.lt (Z.of_nat <$> seq a m).
Proof.
  revert a. induction m as [|m IH]; intros a; simpl; [constructor|].
  constructor; [apply IH|].
  apply Forall_forall. intros j (i & -> & Hi)%list_elem_of_fmap.
  apply elem_of_seq in Hi. lia.
Qed.

Lemma chunk_count (n len q : nat) :
  0 < n -> (exists i, i < len /\ i / n = q) <-> q < (len + n - 1) / n.
Proof.
  intros Hn.
  pose proof (Nat.div_mod_eq (len + n - 1) n) as Hdiv.
  pose proof (Nat.mod_upper_bound (len + n - 1) n ltac:(lia)) as Hmod.
  split.
  - intros (i & Hi & <-). apply Nat.Div0.div_lt_upper_bound. lia.
  - intros Hq. exists (q * n). split; [nia|]. by apply Nat.div_mul; lia.
Qed.

(** The group keys of such a frame are [0, 1, ..], one per started chunk. *)
Lemma group_keys_chunks (n : nat) (df : DataFrame) :
  0 < n ->
  (forall i r, df !! i = Some r -> job_id r = index_job_id n i) ->
  group_keys df = Z.of_nat <$> seq 0 ((length df + n - 1) / n).
Proof.
  intros Hn Hidx. apply StronglySorted_lt_unique.
  - apply group_keys_sorted.
  - apply seq_sorted.
  - intros j. rewrite group_keys_elem, !list_elem_of_fmap. split.
    + intros (r & -> & Hr). apply list_elem_of_lookup in Hr as [i Hi].
      exists (i / n). split; [by rewrite (Hidx _ _ Hi), index_job_id_nat|].
      apply elem_of_seq. split; [lia|]. simpl.
      apply chunk_count; [done|]. exists i. split; [|done].
      by eapply lookup_lt_Some.
    + intros (q & -> & Hq). apply elem_of_seq in Hq as [_ Hq]. simpl in Hq.
      apply chunk_count in Hq as (i & Hi & <-); [|done].
      apply lookup_lt_is_Some in Hi as [r Hr].
      exists r. split; [by rewrite (Hidx _ _ Hr), index_job_id_nat|].
      by eapply list_elem_of_lookup_2.
Qed.

Lemma groupby_chunks (n k : nat) (df : DataFrame) (g : Z * DataFrame) :
  0 < n ->
  (forall i r, df !! i = Some r -> job_id r = index_job_id n i) ->
  groupby_job_id df !! k = Some g ->
  g = (Z.of_nat k, take n (drop (k * n) df)).
Proof.
  intros Hn Hidx Hg. unfold groupby_job_id in Hg.
  apply list_lookup_fmap_Some_1 in Hg as (j & -> & Hj).
  rewrite (group_keys_chunks n df Hn Hidx) in Hj.
  apply list_lookup_fmap_Some_1 in Hj as (q & -> & Hq).
  apply lookup_seq in Hq as [-> _]. simpl.
  by rewrite (filter_chunk n k df Hn Hidx).
Qed.

Lemma nunique_pos (xs : list string) : xs <> [] -> 0 < nunique xs.
Proof.
  destruct xs as [|x xs]; [done|]. intros _. unfold nunique.
  assert (x ∈ remove_dups (x :: xs)) as Hx by (apply elem_of_remove_dups; left).
  destruct (remove_dups (x :: xs)); [by apply elem_of_nil in Hx|simpl; lia].
Qed.

Lemma lambda_frame_index (raw : list PredictionRow) (i : nat)
      (r : CandidateRecord) :
  lambda_frame raw !! i = Some r ->
  job_id r = index_job_id (nunique (pred_carrier_id <$> raw)) i.
Proof.
  unfold lambda_frame. rewrite list_lookup_imap.
  destruct (raw !! i); [|discriminate]. by intros [= <-].
Qed.

Lemma main_frame_index (raw : list PredictionRow) (i : nat)
      (r : CandidateRecord) :
  main_frame raw !! i = Some r ->
  job_id r = index_job_id (nunique (pred_carrier_id <$> raw)) i.
Proof.
  unfold main_frame. rewrite list_lookup_imap.
  destruct (raw !! i); [|discriminate]. by intros [= <-].
Qed.

(** X8.  In [lambda_handler] the [k]-th job the loop handles has job id [k]
    and consists of the rows [k * n .. k * n + n - 1] of the table, [n]
    being the number of distinct carriers in the whole table: jobs are
    consecutive chunks of [n] rows, whichever carriers those rows name. *)
Theorem lambda_jobs_are_row_chunks (raw : list PredictionRow) (k : nat)
        (g : Z * DataFrame) :
  groupby_job_id (lambda_frame raw) !! k = Some g ->
  g = (Z.of_nat k,
       take (nunique (pred_carrier_id <$> raw))
            (drop (k * nunique (pred_carrier_id <$> raw)) (lambda_frame raw))).
Proof.
  intros Hg. apply groupby_chunks; [|apply lambda_frame_index|exact Hg].
  apply nunique_pos. intros Hnil. apply fmap_nil_inv in Hnil. by subst raw.
Qed.

Lemma lambda_jobs_are_row_chunks_witness :
  (2%Z, [row "C1" 2 1 0])
  = (Z.of_nat 2,
     take (nunique (pred_carrier_id <$> sample_predictions))
          (drop (2 * nunique (pred_carrier_id <$> sample_predictions))
                (lambda_frame sample_predictions))).
Proof.
  apply (lambda_jobs_are_row_chunks sample_predictions 2).
  vm_compute. reflexivity.
Defined.

(** X9.  [main] of [src/ml_model/optimizer.py] returns one result per
    started chunk of [n] rows of the table, [n] being the number of distinct
    carriers: the rows count divided by [n], rounded up; the [k]-th result
    is the one of job [k]. *)
Theorem main_one_result_per_chunk (raw : list PredictionRow) :
  exists rs,
    main_assignments raw = inr rs /\
    length rs
    = (length raw + nunique (pred_carrier_id <$> raw) - 1)
      / nunique (pred_carrier_id <$> raw) /\
    forall k d, rs !! k = Some d -> result_job d = Some (Z.of_nat k).
Proof.
  unfold main_assignments.
  destruct (results_follow_group_keys ml_model_optimizer_py (main_frame raw)
              default_max_hours) as (rs & Hrs & Hjobs).
  exists rs. split; [exact Hrs|].
  destruct raw as [|p raw'].
  { apply Forall2_length in Hjobs. destruct rs; [|discriminate].
    split; [reflexivity|]. intros k d Hd. by rewrite lookup_nil in Hd. }
  set (raw := p :: raw') in *.
  assert (0 < nunique (pred_carrier_id <$> raw)) as Hn by by apply nunique_pos.
  rewrite (group_keys_chunks _ (main_frame raw) Hn (main_frame_index raw))
    in Hjobs.
  split.
  - apply Forall2_length in Hjobs. rewrite Hjobs, length_fmap, length_seq.
    unfold main_frame. by rewrite length_imap.
  - intros k d Hd.
    destruct (Forall2_lookup_l _ _ _ _ _ Hjobs Hd) as (j & Hj & ->).
    apply list_lookup_fmap_Some_1 in Hj as (q & -> & Hq).
    by apply lookup_seq in Hq as [-> _].
Qed.

Lemma leb_zero_add (y m : float) :
  PrimFloat.leb (PrimFloat.add 0%float y) m = PrimFloat.leb y m.
Proof.
  rewrite !FloatAxioms.leb_spec, add_spec.
  replace (Prim2SF 0%float) with (S754_zero false) by reflexivity.
  unfold SFleb, SF64add.
  destruct (Prim2SF y) as [s|s| |s my ey]; try reflexivity.
  destruct s; reflexivity.
Qed.

(** X10.  In [lambda_handler] every carrier starts with [0.0] hours worked,
    so whether a row is under the cap depends on its predicted time alone:
    a row is eligible exactly when [p90_time_min / 60.0 <= max_hours]. *)
Theorem lambda_cap_ignores_hours (raw : list PredictionRow)
        (max_hours : float) (r : CandidateRecord) :
  r ∈ lambda_frame raw ->
  carrier_hours_worked r = 0%float /\
  can_work max_hours r
  = PrimFloat.leb (PrimFloat.div (p90_time_min r) 60%float) max_hours.
Proof.
  intros Hr. apply list_elem_of_lookup in Hr as [i Hi].
  unfold lambda_frame in Hi. rewrite list_lookup_imap in Hi.
  destruct (raw !! i) as [p|]; [|discriminate]. injection Hi as <-.
  split; [reflexivity|]. unfold can_work. simpl. apply leb_zero_add.
Qed.

Lemma lambda_cap_ignores_hours_witness :
  carrier_hours_worked (row "C1" 2 1 0) = 0%float /\
  can_work default_max_hours (row "C1" 2 1 0)
  = PrimFloat.leb (PrimFloat.div (p90_time_min (row "C1" 2 1 0)) 60%float)
                  default_max_hours.
Proof.
  apply (lambda_cap_ignores_hours sample_predictions).
  apply (list_elem_of_lookup_2 _ 4). vm_compute. reflexivity.
Defined.

(** * The newest predictions file *)

Lemma endswith_nil (suffix : string) :
  endswith EmptyString suffix = String.eqb EmptyString suffix.
Proof. cbn [endswith]. apply orb_false_r. Qed.

Lemma endswith_cons (a : Ascii.ascii) (s suffix : string) :
  endswith (String a s) suffix
  = String.eqb (String a s) suffix || endswith s suffix.
Proof. reflexivity. Qed.

Lemma endswith_spec (s suffix : string) :
  endswith s suffix = true <-> exists p, s = String.append p suffix.
Proof.
  induction s as [|a s IH].
  - rewrite endswith_nil, String.eqb_eq. split.
    + intros <-. by exists EmptyString.
    + intros ([|b p] & Hp); simpl in Hp; [done|discriminate].
  - rewrite endswith_cons, orb_true_iff, IH, String.eqb_eq. split.
    + intros [<-|(p & ->)]; [by exists EmptyString|by exists (String a p)].
    + intros ([|b p] & Hp); simpl in Hp; [by left|].
      right. injection Hp as -> ->. by exists p.
Qed.

Lemma insert_latest_first_elem (x y : s3_object) (l : list s3_object) :
  y ∈ insert_latest_first x l <-> y = x \/ y ∈ l.
Proof.
  induction l as [|z l IH]; simpl.
  - rewrite elem_of_cons, elem_of_nil. tauto.
  - destruct (LastModified x <? LastModified z)%Z.
    + rewrite !elem_of_cons, IH. tauto.
    + rewrite !elem_of_cons. tauto.
Qed.

Lemma sorted_latest_first_elem (y : s3_object) (l : list s3_object) :
  y ∈ sorted_latest_first l <-> y ∈ l.
Proof.
  induction l as [|x l IH]; simpl; [done|].
  by rewrite insert_latest_first_elem, IH, elem_of_cons.
Qed.

(** The head of the sorted list is an object of the list at some position
    [i], no object is newer, and the objects before position [i] are
    strictly older. *)
Lemma sorted_latest_first_head (l : list s3_object) (latest : s3_object)
      (rest : list s3_object) :
  sorted_latest_first l = latest :: rest ->
  exists i,
    l !! i = Some latest /\
    (forall obj, obj ∈ l -> (LastModified obj <= LastModified latest)%Z) /\
    (forall i' obj, i' < i -> l !! i' = Some obj ->
                    (LastModified obj < LastModified latest)%Z).
Proof.
  revert latest rest. induction l as [|x l IH]; intros latest rest; simpl;
    [discriminate|].
  destruct (sorted_latest_first l) as [|y ys] eqn:Hsorted; simpl.
  - intros [= <- <-]. exists 0. split; [reflexivity|].
    assert (l = []) as ->.
    { destruct l as [|z l]; [reflexivity|].
      assert (z ∈ sorted_latest_first (z :: l)) as Hz
        by (apply sorted_latest_first_elem; left).
      rewrite Hsorted in Hz. by apply elem_of_nil in Hz. }
    split; [|intros; lia].
    intros obj [->|Hobj]%elem_of_cons; [lia|by apply elem_of_nil in Hobj].
  - destruct (IH y ys eq_refl) as (i & Hi & Hmax & Hfirst).
    destruct (LastModified x <? LastModified y)%Z eqn:Hlt; intros [= <- <-].
    + apply Z.ltb_lt in Hlt. exists (S i). split; [exact Hi|]. split.
      * intros obj [->|Hobj]%elem_of_cons; [lia|by apply Hmax].
      * intros [|i'] obj Hi' Hobj; simpl in Hobj.
        -- injection Hobj as <-. done.
        -- apply (Hfirst i'); [lia|done].
    + apply Z.ltb_ge in Hlt. exists 0. split; [reflexivity|]. split.
      * intros obj [->|Hobj]%elem_of_cons; [lia|].
        specialize (Hmax obj Hobj). lia.
      * intros; lia.
Qed.


(** X12.  The key [get_latest_csv] returns is the key of an object of the
    listing, it ends in [.csv], and no object of the listing whose key ends
    in [.csv] was modified later. *)
Theorem get_latest_csv_is_latest (contents : list s3_object) (key : string) :
  get_latest_csv (Some contents) = inr key ->
  exists latest,
    latest ∈ contents /\ Key latest = key /\
    (exists p, key = String.append p ".csv") /\
    forall obj, obj ∈ contents -> endswith (Key obj) ".csv" = true ->
                (LastModified obj <= LastModified latest)%Z.
Proof.
  simpl. destruct (filter _ contents) as [|o csvs] eqn:Hcsvs; [discriminate|].
  destruct (sorted_latest_first (o :: csvs)) as [|latest rest] eqn:Hsorted;
    [discriminate|].
  intros [= <-].
  destruct (sorted_latest_first_head _ _ _ Hsorted) as (i & Hi & Hmax & _).
  apply list_elem_of_lookup_2 in Hi. rewrite <- Hcsvs in Hi, Hmax.
  apply list_elem_of_filter in Hi as [Hend Hin].
  exists latest. split; [exact Hin|]. split; [reflexivity|].
  split; [by apply endswith_spec|].
  intros obj Hobj Hcsv. apply Hmax. by apply list_elem_of_filter.
Qed.

Lemma get_latest_csv_is_latest_witness :
  exists latest,
    latest ∈ sample_listing /\ Key latest = "predictions/b.csv" /\
    (exists p, "predictions/b.csv" = String.append p ".csv") /\
    forall obj, obj ∈ sample_listing -> endswith (Key obj) ".csv" = true ->
                (LastModified obj <= LastModified latest)%Z.
Proof.
  apply (get_latest_csv_is_latest sample_listing "predictions/b.csv").
  vm_compute. reflexivity.
Defined.

(** X13.  When several [.csv] objects share the latest time stamp,
    [get_latest_csv] returns the key of the one listed first: every [.csv]
    object listed before the returned one is strictly older. *)
Theorem get_latest_csv_tie_first_listed (contents : list s3_object)
        (key : string) :
  get_latest_csv (Some contents) = inr key ->
  exists i latest,
    contents !! i = Some latest /\ Key latest = key /\
    forall i' obj, i' < i -> contents !! i' = Some obj ->
                   endswith (Key obj) ".csv" = true ->
                   (LastModified obj < LastModified latest)%Z.
Proof.
  simpl. destruct (filter _ contents) as [|o csvs] eqn:Hcsvs; [discriminate|].
  destruct (sorted_latest_first (o :: csvs)) as [|latest rest] eqn:Hsorted;
    [discriminate|].
  intros [= <-].
  destruct (sorted_latest_first_head _ _ _ Hsorted) as (i & Hi & _ & Hfirst).
  rewrite <- Hcsvs in Hi, Hfirst.
  destruct (filter_lookup_before _ _ _ _ Hi) as (j & Hj & Hbefore).
  exists j, latest. split; [exact Hj|]. split; [reflexivity|].
  intros j' obj Hj' Hobj Hcsv.
  destruct (Hbefore j' obj Hj' Hobj Hcsv) as (i' & Hi' & Hlook).
  by apply (Hfirst i').
Qed.

Lemma get_latest_csv_tie_first_listed_witness :
  exists i latest,
    sample_listing !! i = Some latest /\ Key latest = "predictions/b.csv" /\
    forall i' obj, i' < i -> sample_listing !! i' = Some obj ->
                   endswith (Key obj) ".csv" = true ->
                   (LastModified obj < LastModified latest)%Z.
Proof.
  apply (get_latest_csv_tie_first_listed sample_listing "predictions/b.csv").
  vm_compute. reflexivity.
Defined.

(** * The Lambda handler *)

Lemma to_python_row_id (d : dict) : to_python_row d = d.
Proof.
  unfold to_python_row. induction d as [|[k v] d IH]; [reflexivity|].
  rewrite fmap_cons, IH. by destruct v.
Qed.

Lemma to_python_rows_id (rs : list dict) : to_python_row <$> rs = rs.
Proof.
  induction rs as [|d rs IH]; [reflexivity|].
  by rewrite fmap_cons, IH, to_python_row_id.
Qed.

Lemma lambda_assign_jobs_returns (raw : list PredictionRow) :
  exists rs,
    assign_jobs optimizer_lambda_py (lambda_frame raw) default_max_hours
    = inr rs.
Proof.
  destruct (assign_jobs_trace optimizer_lambda_py (lambda_frame raw)
              default_max_hours) as (rs & _ & Hrs & _).
  by exists rs.
Qed.

(** X15.  [lambda_handler] asks the bucket to delete a key only after the
    optimized file was written: when a delete request is sent, it is the
    last of exactly four requests (list, get of that same key, put, delete),
    the put succeeded, and the answer has status 200. *)
Theorem lambda_handler_deletes_only_after_write (s3 : S3) (key : string) :
  DeleteObject key ∈ (lambda_handler s3).2 ->
  statusCode (lambda_handler s3).1 = 200%Z /\
  exists out_key csv,
    put_object s3 out_key csv = inr tt /\
    (lambda_handler s3).2
    = [ListObjectsV2; GetObject key; PutObject out_key csv; DeleteObject key].
Proof.
  unfold lambda_handler.
  destruct (list_objects_v2 s3) as [?|resp]; simpl.
  { intros Hin. repeat (apply elem_of_cons in Hin as [Hin|Hin]; [discriminate|]).
    by apply elem_of_nil in Hin. }
  destruct (get_latest_csv resp) as [?|key0]; simpl.
  { intros Hin. repeat (apply elem_of_cons in Hin as [Hin|Hin]; [discriminate|]).
    by apply elem_of_nil in Hin. }
  destruct (get_object s3 key0) as [?|content]; simpl.
  { intros Hin. repeat (apply elem_of_cons in Hin as [Hin|Hin]; [discriminate|]).
    by apply elem_of_nil in Hin. }
  destruct (read_csv s3 content) as [?|raw]; simpl.
  { intros Hin. repeat (apply elem_of_cons in Hin as [Hin|Hin]; [discriminate|]).
    by apply elem_of_nil in Hin. }
  destruct (lambda_assign_jobs_returns raw) as (rs & ->). simpl.
  destruct (put_object s3 _ _) as [?|[]] eqn:Hput; simpl.
  { intros Hin. repeat (apply elem_of_cons in Hin as [Hin|Hin]; [discriminate|]).
    by apply elem_of_nil in Hin. }
  intros Hin.
  do 3 (apply elem_of_cons in Hin as [Hin|Hin]; [discriminate|]).
  apply elem_of_cons in Hin as [[= ->]|Hin]; [|by apply elem_of_nil in Hin].
  split; [reflexivity|]. eauto.
Qed.

Lemma lambda_handler_deletes_only_after_write_witness :
  statusCode (lambda_handler sample_s3).1 = 200%Z /\
  exists out_key csv,
    put_object sample_s3 out_key csv = inr tt /\
    (lambda_handler sample_s3).2
    = [ListObjectsV2; GetObject "predictions/b.csv"; PutObject out_key csv;
       DeleteObject "predictions/b.csv"].
Proof.
  apply (lambda_handler_deletes_only_after_write sample_s3 "predictions/b.csv").
  vm_compute. do 3 right. left.
Defined.

(** X16.  [lambda_handler] answers 200 exactly when the listing, the
    download and the parsing of the newest [.csv] and the upload of the
    result all succeed.  The body then carries the result list of
    [assign_jobs] on the derived frame with the default cap, unchanged by
    [to_python], and [deleted_input_file] tells whether the final delete
    succeeded; a failed delete does not change the status. *)
Theorem lambda_handler_success (s3 : S3) :
  statusCode (lambda_handler s3).1 = 200%Z <->
  exists resp key content raw rs,
    list_objects_v2 s3 = inr resp /\
    get_latest_csv resp = inr key /\
    get_object s3 key = inr content /\
    read_csv s3 content = inr raw /\
    assign_jobs optimizer_lambda_py (lambda_frame raw) default_max_hours
    = inr rs /\
    put_object s3
      (String.append OPTIMIZED_PREFIX
         (String.append "optimized_"
            (String.append (utcnow_isoformat s3) ".csv")))
      (to_csv s3 rs) = inr tt /\
    response_body (lambda_handler s3).1
    = optimized
        (String.append OPTIMIZED_PREFIX
           (String.append "optimized_"
              (String.append (utcnow_isoformat s3) ".csv")))
        rs
        (match delete_object s3 key with inr _ => true | inl _ => false end)
        key.
Proof.
  unfold lambda_handler. split.
  - destruct (list_objects_v2 s3) as [?|resp] eqn:Hlist; [discriminate|].
    destruct (get_latest_csv resp) as [?|key] eqn:Hkey; [discriminate|].
    destruct (get_object s3 key) as [?|content] eqn:Hget; [discriminate|].
    destruct (read_csv s3 content) as [?|raw] eqn:Hread; [discriminate|].
    destruct (lambda_assign_jobs_returns raw) as (rs & Hrs). rewrite Hrs.
    simpl. destruct (put_object s3 _ _) as [?|[]] eqn:Hput; [discriminate|].
    intros _. exists resp, key, content, raw, rs.
    split; [reflexivity|]. repeat (split; [assumption|]).
    simpl. by rewrite to_python_rows_id.
  - intros (resp & key & content & raw & rs & -> & -> & -> & -> & -> & Hput & _).
    cbv zeta. by rewrite Hput.
Qed.
